(** * Zoho subscribe route: token broker, error mapping and POST handler

    A shallow embedding of [src/app/api/zoho/subscribe/route.js].

    Modelling conventions.
    - JavaScript strings are byte strings ([string], read as UTF-8).  The
      helpers below act on the ASCII range, which is where the literals the
      route compares against live: [trim] strips the ASCII white space of
      ECMAScript (TAB, LF, VT, FF, CR, SP), [toLowerCase] folds [A-Z], and the
      two regular expressions of the route, both with the [i] flag and no [u]
      flag, only ever match ASCII letters.  Bytes above 127 are never white
      space and never letters.
    - JavaScript numbers are integers ([Z]): times are milliseconds as
      returned by [Date.now()], [expires_in] is a number of seconds.
    - A JSON field that is [undefined] or [null] is [None]; truthiness of a
      string field ([""] is falsy) and of a number field ([0] is falsy) is
      written out where the source relies on it.
    - An [async] function runs without interruption from one [await] to the
      next: every such segment is one function of the model, and the
      scheduler ([step]) interleaves whole segments. *)

From Stdlib Require Import ZArith Ascii String Permutation.
From Stdlib Require DecimalString DecimalPos.
From stdpp Require Import base option list strings gmap.

Local Open Scope Z_scope.

(** ** JavaScript string primitives used by the route *)

Module JS.

(** ECMAScript [WhiteSpace] and [LineTerminator], ASCII range. *)
Definition is_ws (c : ascii) : bool :=
  match N_of_ascii c with
  | 9%N | 10%N | 11%N | 12%N | 13%N | 32%N => true
  | _ => false
  end.

Fixpoint trimStart (s : string) : string :=
  match s with
  | EmptyString => EmptyString
  | String c s' => if is_ws c then trimStart s' else s
  end.

Fixpoint trimEnd (s : string) : string :=
  match s with
  | EmptyString => EmptyString
  | String c s' =>
      match trimEnd s' with
      | EmptyString => if is_ws c then EmptyString else String c EmptyString
      | r => String c r
      end
  end.

(** [String.prototype.trim] *)
Definition trim (s : string) : string := trimEnd (trimStart s).




(** Truthiness of a value that is [undefined]/[null] or a string. *)
Definition truthy (o : option string) : bool :=
  match o with
  | Some s => negb (String.eqb s "")
  | None => false
  end.

(** [a || b] on such values. *)
Definition or_else (a b : option string) : option string :=
  if truthy a then a else b.

(** [a || "literal"] *)
Definition or_default (a : option string) (d : string) : string :=
  match a with
  | Some s => if String.eqb s "" then d else s
  | None => d
  end.

(** [process.env.X?.trim()] *)
Definition opt_trim (o : option string) : option string :=
  match o with
  | Some s => Some (trim s)
  | None => None
  end.

Definition lower_ascii (c : ascii) : ascii :=
  let n := N_of_ascii c in
  if ((65 <=? n) && (n <=? 90))%N then ascii_of_N (n + 32) else c.

(** [String.prototype.toLowerCase] *)
Fixpoint toLowerCase (s : string) : string :=
  match s with
  | EmptyString => EmptyString
  | String c s' => String (lower_ascii c) (toLowerCase s')
  end.

Fixpoint startsWith (p s : string) : bool :=
  match p, s with
  | EmptyString, _ => true
  | String a p', String b s' => Ascii.eqb a b && startsWith p' s'
  | String _ _, EmptyString => false
  end.

(** [s.includes(p)] *)
Fixpoint includes (p s : string) : bool :=
  startsWith p s ||
  match s with
  | EmptyString => false
  | String _ s' => includes p s'
  end.

(** [String(v)] for a value that is [undefined] or a string: what
    [RegExp.prototype.test] does to its argument. *)
Definition toString (o : option string) : string :=
  match o with
  | Some s => s
  | None => "undefined"
  end.

(** [/email/i.test(v)] *)
Definition test_email (v : option string) : bool :=
  includes "email" (toLowerCase (toString v)).

(** [/record added|success/i.test(s)] *)
Definition test_success (s : string) : bool :=
  let l := toLowerCase s in
  includes "record added" l || includes "success" l.

(** [s.split(",")]: never empty, [""] splits into [[""]]. *)
Fixpoint split_comma (s : string) : list string :=
  match s with
  | EmptyString => [EmptyString]
  | String c s' =>
      if Ascii.eqb c ","
      then EmptyString :: split_comma s'
      else match split_comma s' with
           | w :: ws => String c w :: ws
           | [] => [String c EmptyString]
           end
  end.

(** [xs.join(sep)] *)
Fixpoint join (sep : string) (xs : list string) : string :=
  match xs with
  | [] => ""
  | [x] => x
  | x :: rest => x +:+ sep +:+ join sep rest
  end.

Definition hex_digit (n : N) : ascii :=
  if (n <? 10)%N then ascii_of_N (48 + n) else ascii_of_N (55 + n).

(** The characters [encodeURIComponent] leaves alone:
    [A-Z a-z 0-9 - _ . ! ~ * ' ( )]. *)
Definition uri_unreserved (c : ascii) : bool :=
  let n := N_of_ascii c in
  (((65 <=? n) && (n <=? 90)) || ((97 <=? n) && (n <=? 122)) ||
   ((48 <=? n) && (n <=? 57)) ||
   (n =? 45) || (n =? 95) || (n =? 46) || (n =? 33) || (n =? 126) ||
   (n =? 42) || (n =? 39) || (n =? 40) || (n =? 41))%N.

(** [encodeURIComponent] on the UTF-8 bytes of the string. *)
Fixpoint encodeURIComponent (s : string) : string :=
  match s with
  | EmptyString => EmptyString
  | String c s' =>
      if uri_unreserved c then String c (encodeURIComponent s')
      else let n := N_of_ascii c in
           String "%" (String (hex_digit (n / 16)) (String (hex_digit (n mod 16))
                                                      (encodeURIComponent s')))
  end.

(** [s.substring(0, n)] *)
Fixpoint take_chars (n : nat) (s : string) : string :=
  match n, s with
  | S n', String c s' => String c (take_chars n' s')
  | _, _ => EmptyString
  end.

End JS.

(** ** Token cache and OAuth management (route.js, lines 11-121) *)

(** [process.env], the variables the route reads. *)
Record Env := {
  ZOHO_CRM_REFRESH_TOKEN : option string;
  ZOHO_CRM_CLIENT_ID : option string;
  ZOHO_CRM_CLIENT_SECRET : option string;
  ZOHO_CRM_ACCOUNTS_DOMAIN : option string;
  NODE_ENV : option string
}.

(** Promises are heap objects; a promise is named by its address. *)
Definition promise_id := nat.
Bind Scope nat_scope with promise_id.

(** [globalThis.__ZOHO_TOKEN_CACHE] *)
Record Cache := {
  access_token : option string;
  expires_at : Z;
  refreshPromise : option promise_id
}.

(** The object installed at module load (lines 13-19). *)
Definition initial_cache : Cache :=
  {| access_token := None; expires_at := 0; refreshPromise := None |}.

(** The second argument of [fetch].  [signal] is the abort signal, given as
    the delay in milliseconds after which its controller aborts; [None] when
    the call passes no [signal] at all. *)
Record fetch_request (B : Type) := {
  url : string;
  method : string;
  headers : list (string * string);
  body : B;
  signal : option Z
}.
Arguments url {B} _.
Arguments method {B} _.
Arguments headers {B} _.
Arguments body {B} _.
Arguments signal {B} _.

(** The token request has no body. *)
Definition token_request := fetch_request unit.

(** The parsed token response, [tokenData]. *)
Record token_data := {
  td_access_token : option string;
  td_expires_in : option Z;
  td_error_description : option string;
  td_error : option string;
  td_message : option string
}.

(** What comes back from the Identity Provider, once [fetch] and then
    [tokenResponse.text()] have settled (the refresh touches nothing
    between the two awaits).  [ok] is [tokenResponse.ok].  [FetchRejected]
    is either await throwing; [Parsed] is any JSON value other than [null],
    a value that is no object having none of the fields. *)
Inductive provider_reply :=
| FetchRejected (reason : string)
| Unparsable (ok : bool) (text : string)
| ParsedNull (ok : bool)
| Parsed (ok : bool) (d : token_data).

(** How a promise settles. *)
Inductive outcome :=
| Fulfilled (token : string)
| Rejected (message : string).

(** Lines 32-38: the cached token, when it is still good for 30 seconds. *)
Definition readIfValid (cache : Cache) (now : Z) : option string :=
  match access_token cache with
  | Some tok =>
      if negb (String.eqb tok "")
         && negb (expires_at cache =? 0)
         && (now <? expires_at cache - 30000)
      then Some tok else None
  | None => None
  end.

(** Lines 54-57: the names pushed onto [missing]. *)
Definition missing (refreshToken clientId clientSecret : option string)
  : list string :=
  (if JS.truthy refreshToken then [] else ["ZOHO_CRM_REFRESH_TOKEN"%string]) ++
  (if JS.truthy clientId then [] else ["ZOHO_CRM_CLIENT_ID"%string]) ++
  (if JS.truthy clientSecret then [] else ["ZOHO_CRM_CLIENT_SECRET"%string]).

Definition missing_message (names : list string) : string :=
  "Missing Zoho OAuth credentials: " +:+ JS.join ", " names
    +:+ ". Please set these environment variables.".

(** Line 68 *)
Definition tokenUrl (accountsDomain refreshToken clientId clientSecret : string)
  : string :=
  accountsDomain +:+ "/oauth/v2/token?refresh_token="
    +:+ JS.encodeURIComponent refreshToken
    +:+ "&client_id=" +:+ JS.encodeURIComponent clientId
    +:+ "&client_secret=" +:+ JS.encodeURIComponent clientSecret
    +:+ "&grant_type=refresh_token".

(** Lines 71-76 *)
Definition tokenFetch (u : string) : token_request :=
  {| url := u;
     method := "POST";
     headers := [("Content-Type", "application/x-www-form-urlencoded")];
     body := tt;
     signal := None |}.

(** The first segment of [getZohoAccessToken], lines 27-76, up to its first
    [await].  It ends in one of four ways.  In the last one the refresh has
    run up to its [await fetch] and its promise is in the cache; nothing on
    the way can throw ([encodeURIComponent] is total on well-formed strings,
    [fetch] reports its errors through the promise). *)
Inductive entry :=
| Hit (token : string)            (* line 37: [return cache.access_token] *)
| Join (p : promise_id)           (* line 43: [await cache.refreshPromise] *)
| Throw (message : string)        (* line 58: configuration error *)
| Lead (req : token_request).     (* lines 64-76: new refresh, [fetch] issued *)

Definition getZohoAccessToken (env : Env) (cache : Cache) (now : Z) : entry :=
  match readIfValid cache now with
  | Some tok => Hit tok
  | None =>
      match refreshPromise cache with
      | Some p => Join p
      | None =>
          let refreshToken := JS.opt_trim (ZOHO_CRM_REFRESH_TOKEN env) in
          let clientId := JS.opt_trim (ZOHO_CRM_CLIENT_ID env) in
          let clientSecret := JS.opt_trim (ZOHO_CRM_CLIENT_SECRET env) in
          let accountsDomain :=
            JS.or_default (JS.opt_trim (ZOHO_CRM_ACCOUNTS_DOMAIN env))
                          "https://accounts.zoho.in" in
          if negb (JS.truthy refreshToken) || negb (JS.truthy clientId)
             || negb (JS.truthy clientSecret)
          then Throw (missing_message (missing refreshToken clientId clientSecret))
          else Lead (tokenFetch (tokenUrl accountsDomain
                                          (JS.toString refreshToken)
                                          (JS.toString clientId)
                                          (JS.toString clientSecret)))
      end
  end.

(** Line 64: the new promise is stored in the cache. *)
Definition store_promise (cache : Cache) (p : promise_id) : Cache :=
  {| access_token := access_token cache;
     expires_at := expires_at cache;
     refreshPromise := Some p |}.

(** Lines 91-95 *)
Definition errorMsg (d : token_data) : string :=
  JS.or_default
    (JS.or_else (td_error_description d) (JS.or_else (td_error d) (td_message d)))
    "Unknown token error".

(** Line 102: [tokenData.expires_in || 3600] *)
Definition expiresIn (d : token_data) : Z :=
  match td_expires_in d with
  | Some n => if n =? 0 then 3600 else n
  | None => 3600
  end.

(** Lines 78-106, the [try] block of the refresh after [fetch] has settled:
    the promise's outcome and the cache as the block leaves it.  [now] is
    the [Date.now()] of line 104. *)
Definition refresh_try (reply : provider_reply) (now : Z) (cache : Cache)
  : outcome * Cache :=
  match reply with
  | FetchRejected reason => (Rejected reason, cache)
  | Unparsable _ _ =>
      (Rejected "Failed to refresh Zoho token (invalid JSON response)", cache)
  | ParsedNull ok =>
      (* [tokenData] is [null]: line 89 reads [tokenData.access_token] when the
         response is ok, line 92 reads [tokenData.error_description] when not *)
      (Rejected (if ok
                 then "Cannot read properties of null (reading 'access_token')"
                 else "Cannot read properties of null (reading 'error_description')"),
       cache)
  | Parsed ok d =>
      if negb ok || negb (JS.truthy (td_access_token d))
      then (Rejected ("Failed to refresh Zoho token: " +:+ errorMsg d), cache)
      else
        let accessToken := JS.toString (td_access_token d) in
        (Fulfilled accessToken,
         {| access_token := Some accessToken;
            expires_at := now + expiresIn d * 1000;
            refreshPromise := refreshPromise cache |})
  end.

(** Lines 107-110: the [finally] block. *)
Definition refresh_finally (cache : Cache) : Cache :=
  {| access_token := access_token cache;
     expires_at := expires_at cache;
     refreshPromise := None |}.

(** The second segment of the refresh, lines 78-110. *)
Definition refresh_settle (reply : provider_reply) (now : Z) (cache : Cache)
  : outcome * Cache :=
  let (o, cache') := refresh_try reply now cache in
  (o, refresh_finally cache').

(** Lines 115-120: the [catch] block of the caller that started the refresh. *)
Definition leader_catch (cache : Cache) : Cache :=
  {| access_token := None;
     expires_at := 0;
     refreshPromise := refreshPromise cache |}.

(** ** The event loop around the token cache

    Callers of [getZohoAccessToken] are numbered.  [promises] is the heap of
    refresh promises, [None] while pending; [fetches] logs the requests sent
    to the token endpoint, oldest first. *)

Inductive caller_state :=
| AwaitLeader (p : promise_id)      (* suspended at line 114 *)
| AwaitFollower (p : promise_id)    (* suspended at line 43 *)
| Returned (token : string)
| Threw (message : string).

Record State := {
  cache : Cache;
  promises : list (option outcome);
  fetches : list token_request;
  callers : gmap nat caller_state
}.

Definition init (c : Cache) : State :=
  {| cache := c; promises := []; fetches := []; callers := ∅ |}.

Inductive event :=
| Call (k : nat) (now : Z)
    (* caller [k] enters [getZohoAccessToken]; [Date.now()] reads [now] *)
| Settle (p : promise_id) (reply : provider_reply) (now : Z)
    (* the [fetch] of refresh [p] settles and the refresh runs to its end *)
| Resume (k : nat).
    (* the [await] of caller [k] continues with the settled promise *)

Definition set_caller (s : State) (k : nat) (c : caller_state) : State :=
  {| cache := cache s; promises := promises s; fetches := fetches s;
     callers := <[k := c]> (callers s) |}.

Definition step_call (env : Env) (s : State) (k : nat) (now : Z) : State :=
  match getZohoAccessToken env (cache s) now with
  | Hit tok => set_caller s k (Returned tok)
  | Join p => set_caller s k (AwaitFollower p)
  | Throw msg => set_caller s k (Threw msg)
  | Lead req =>
      let p := length (promises s) in
      {| cache := store_promise (cache s) p;
         promises := promises s ++ [None];
         fetches := fetches s ++ [req];
         callers := <[k := AwaitLeader p]> (callers s) |}
  end.

Definition step_settle (s : State) (p : promise_id) (reply : provider_reply)
  (now : Z) : State :=
  let (o, c) := refresh_settle reply now (cache s) in
  {| cache := c;
     promises := <[p := Some o]> (promises s);
     fetches := fetches s;
     callers := callers s |}.

Definition settled (s : State) (p : promise_id) : option outcome :=
  match promises s !! p with
  | Some (Some o) => Some o
  | _ => None
  end.

Definition step_resume (s : State) (k : nat) : option State :=
  match callers s !! k with
  | Some (AwaitFollower p) =>
      match settled s p with
      | Some (Fulfilled tok) => Some (set_caller s k (Returned tok))
      | Some (Rejected msg) => Some (set_caller s k (Threw msg))
      | None => None
      end
  | Some (AwaitLeader p) =>
      match settled s p with
      | Some (Fulfilled tok) => Some (set_caller s k (Returned tok))
      | Some (Rejected msg) =>
          Some {| cache := leader_catch (cache s);
                  promises := promises s;
                  fetches := fetches s;
                  callers := <[k := Threw msg]> (callers s) |}
      | None => None
      end
  | _ => None
  end.

(** One event; [None] when the event cannot happen in [s]. *)
Definition step (env : Env) (s : State) (e : event) : option State :=
  match e with
  | Call k now =>
      match callers s !! k with
      | None => Some (step_call env s k now)
      | Some _ => None
      end
  | Settle p reply now =>
      match promises s !! p with
      | Some None => Some (step_settle s p reply now)
      | _ => None
      end
  | Resume k => step_resume s k
  end.

Fixpoint run (env : Env) (s : State) (es : list event) : option State :=
  match es with
  | [] => Some s
  | e :: es' =>
      match step env s e with
      | Some s' => run env s' es'
      | None => None
      end
  end.

(** [n] callers entering one after the other, caller [k0 + i] at time
    [nows !! i]. *)
Fixpoint calls_from (k0 : nat) (nows : list Z) : list event :=
  match nows with
  | [] => []
  | now :: rest => Call k0 now :: calls_from (S k0) rest
  end.

(** What a caller ends with, when it has ended. *)
Definition result_of (c : caller_state) : option outcome :=
  match c with
  | Returned tok => Some (Fulfilled tok)
  | Threw msg => Some (Rejected msg)
  | _ => None
  end.

(** ** Zoho error mapping (route.js, lines 127-192) *)

(** [responseItem.details]: the fields the route reads. *)
Record zoho_details := {
  api_name : option string;
  id : option string
}.

(** The object [mapZohoError] returns; [em_duplicateField] is [None] where
    the returned object has no such property. *)
Record error_mapping := {
  em_message : string;
  em_duplicateField : option string;
  em_status : Z
}.

Definition already_subscribed : string :=
  "This email address is already subscribed. Please use a different email address.".

(** Lines 143-150: the field named by [errorDetails.api_name]. *)
Definition field_from_details (errorDetails : option zoho_details)
  : option string :=
  match errorDetails with
  | Some d =>
      if JS.truthy (api_name d) then
        let apiName := JS.toLowerCase (JS.toString (api_name d)) in
        if String.eqb apiName "email" || JS.includes "email" apiName
        then Some "Email"%string
        else None
      else None
  | None => None
  end.

(** Lines 153-157: only when the details gave nothing, the message is
    searched. *)
Definition field_from_message (duplicateField : option string)
  (errorMessage : option string) : option string :=
  if negb (JS.truthy duplicateField) && JS.test_email errorMessage
  then Some "Email"%string
  else duplicateField.

(** Lines 160-162: the fixed default. *)
Definition field_or_default (duplicateField : option string) : option string :=
  if negb (JS.truthy duplicateField) then Some "Email"%string else duplicateField.

Definition mapZohoError (errorCode errorMessage : option string)
  (errorDetails : option zoho_details) : error_mapping :=
  let defaultMessage :=
    JS.or_default errorMessage "Failed to subscribe. Please try again." in
  let code_is c := match errorCode with
              | Some code => String.eqb code c
              | None => false
              end in
  if code_is "DUPLICATE_DATA" then
    let duplicateField := field_from_details errorDetails in
    let duplicateField := field_from_message duplicateField errorMessage in
    let duplicateField := field_or_default duplicateField in
    {| em_message := already_subscribed;
       em_duplicateField := duplicateField;
       em_status := 409 |}
  else if code_is "MANDATORY_NOT_FOUND" then
    {| em_message :=
         "Required information is missing. Please fill all required fields.";
       em_duplicateField := None;
       em_status := 400 |}
  else if code_is "INVALID_DATA" then
    {| em_message :=
         "Invalid information provided. Please check your input and try again.";
       em_duplicateField := None;
       em_status := 400 |}
  else if code_is "AUTHENTICATION_FAILURE" then
    {| em_message := "Authentication error. Please contact support.";
       em_duplicateField := None;
       em_status := 401 |}
  else
    {| em_message := defaultMessage;
       em_duplicateField := None;
       em_status := if code_is "DUPLICATE_DATA" then 409 else 400 |}.

(** ** The POST handler (route.js, lines 216-371) *)

(** [item.Interests]: a string, an array of strings, or nothing the handler
    looks at (absent, [null], or a value that is neither). *)
Inductive interests :=
| NoInterests
| InterestsString (s : string)
| InterestsArray (l : list string).

(** An element of [body.data]: an object whose [Name] and [Email] are
    strings when present. *)
Record item := {
  Name : option string;
  Email : option string;
  Interests : interests
}.

(** [body.data] *)
Inductive data_field :=
| NoData                         (* absent or falsy *)
| NotArray                       (* truthy, not an array *)
| DataArray (items : list item).

(** What [await request.json()] gives. *)
Inductive request_body :=
| BodyRejected (reason : string)     (* the body is not JSON: the await throws *)
| BodyNull                           (* the JSON value [null] *)
| Body (data : data_field).          (* any other JSON value *)

Definition nonempty (s : string) : bool := negb (String.eqb s "").

(** Lines 258-272 *)
Definition interestsArray (i : interests) : list string :=
  match i with
  | NoInterests => []
  | InterestsString s =>
      if String.eqb s "" then []
      else filter (fun i => nonempty i = true) (map JS.trim (JS.split_comma s))
  | InterestsArray l =>
      filter (fun i => nonempty i = true) (map JS.trim l)
  end.

Record payload_item := {
  p_Name : option string;
  p_Email : option string;
  Lead_Source : string;
  Pick_Your_Interests : list string
}.

(** Lines 249-279 *)
Definition payloadItem (it : item) : payload_item :=
  {| p_Name := JS.opt_trim (Name it);
     p_Email := JS.opt_trim (Email it);
     Lead_Source := "Website";
     Pick_Your_Interests := interestsArray (Interests it) |}.

(** The CRM request; its body is [JSON.stringify] of the payload, kept here
    as the payload itself. *)
Definition crm_request := fetch_request (list payload_item).

Definition zohoApiUrl : string :=
  "https://www.zohoapis.in/crm/v8/Subscribe_to_Newsletter".

(** Lines 286-293 *)
Definition crmFetch (accessToken : string) (payload : list payload_item)
  : crm_request :=
  {| url := zohoApiUrl;
     method := "POST";
     headers := [("Authorization", "Zoho-oauthtoken " +:+ accessToken);
                 ("Content-Type", "application/json")];
     body := payload;
     signal := None |}.

(** [responseData.data?.[0]] *)
Record zoho_item := {
  code : option string;
  status : option string;
  message : option string;
  details : option zoho_details
}.

(** [responseData] *)
Record zoho_response := {
  first_item : option zoho_item;
  top_message : option string
}.

(** What comes back from the CRM. *)
Inductive crm_reply :=
| CrmRejected (reason : string)
| CrmUnparsable (text : string)
| CrmNull
| CrmJson (responseData : zoho_response).

(** The JSON bodies the handler sends. *)
Inductive response_body :=
| ErrorBody (error : string) (details : option string)
| SuccessBody (success : bool) (data zohoResponse : zoho_response)
    (recordId : option string) (message : string)
| ZohoErrorBody (error : string) (duplicateField : option string)
    (zohoResponse : zoho_response) (zohoErrorCode : option string).

Record http_response := {
  res_status : Z;
  res_body : response_body
}.

(** Lines 222-227 *)
Definition invalid_format : http_response :=
  {| res_status := 400;
     res_body := ErrorBody "Invalid request format. Expected { data: [...] }" None |}.

(** Lines 236-242 *)
Definition authentication_failed (tokenError : string) : http_response :=
  {| res_status := 401;
     res_body := ErrorBody "Authentication failed. Unable to get access token."
                           (Some tokenError) |}.

(** Lines 355-370: the catch-all. *)
Definition internal_error (env : Env) (error_message : string) : http_response :=
  {| res_status := 500;
     res_body :=
       ErrorBody "Internal server error. Please try again later."
                 (match NODE_ENV env with
                  | Some mode => if String.eqb mode "development"
                                 then Some error_message else None
                  | None => None
                  end) |}.

Definition item_field {A} (f : zoho_item -> option A) (o : option zoho_item)
  : option A :=
  match o with
  | Some it => f it
  | None => None
  end.

Definition errorCode_of (r : zoho_response) : option string :=
  item_field code (first_item r).

Definition errorMessage_of (r : zoho_response) : option string :=
  JS.or_else (item_field message (first_item r)) (top_message r).

(** Lines 318-321 *)
Definition isSuccess (r : zoho_response) : bool :=
  let errorCode := errorCode_of r in
  let errorStatus := item_field status (first_item r) in
  let errorMessage := errorMessage_of r in
  match errorCode with Some c => String.eqb c "SUCCESS" | None => false end
  || match errorStatus with Some st => String.eqb st "success" | None => false end
  || (JS.truthy errorMessage && JS.test_success (JS.toString errorMessage)).

(** Lines 311-354 *)
Definition respond_to (responseData : zoho_response) : http_response :=
  let responseItem := first_item responseData in
  let errorCode := errorCode_of responseData in
  let errorMessage := errorMessage_of responseData in
  let errorDetails := item_field details responseItem in
  if isSuccess responseData then
    let recordId := match errorDetails with Some d => id d | None => None end in
    {| res_status := 200;
       res_body := SuccessBody true responseData responseData recordId
                               "Successfully subscribed to newsletter" |}
  else
    let errorMapping := mapZohoError errorCode errorMessage errorDetails in
    {| res_status := em_status errorMapping;
       res_body := ZohoErrorBody (em_message errorMapping)
                                 (em_duplicateField errorMapping)
                                 responseData errorCode |}.

(** Lines 295-354, from the settled CRM [fetch] to the response. *)
Definition handle_reply (env : Env) (reply : crm_reply) : http_response :=
  match reply with
  | CrmRejected reason => internal_error env reason
  | CrmUnparsable text =>
      {| res_status := 500;
         res_body := ErrorBody "Invalid response from Zoho API"
                               (Some (JS.take_chars 200 text)) |}
  | CrmNull =>
      internal_error env "Cannot read properties of null (reading 'data')"
  | CrmJson responseData => respond_to responseData
  end.

(** The handler as the tree of its suspension points: it answers, or it
    awaits [getZohoAccessToken], or it awaits the CRM [fetch]. *)
Inductive token_result :=
| TokenOk (accessToken : string)
| TokenError (message : string).

Inductive handler :=
| Respond (r : http_response)
| AwaitToken (k : token_result -> handler)
| AwaitCrm (req : crm_request) (k : crm_reply -> handler).

Definition POST (env : Env) (b : request_body) : handler :=
  match b with
  | BodyRejected reason => Respond (internal_error env reason)
  | BodyNull =>
      Respond (internal_error env
                 "Cannot read properties of null (reading 'data')")
  | Body NoData => Respond invalid_format
  | Body NotArray => Respond invalid_format
  | Body (DataArray []) => Respond invalid_format
  | Body (DataArray items) =>
      AwaitToken (fun r =>
        match r with
        | TokenError tokenError => Respond (authentication_failed tokenError)
        | TokenOk accessToken =>
            AwaitCrm (crmFetch accessToken (map payloadItem items))
                     (fun reply => Respond (handle_reply env reply))
        end)
  end.

(** Whether the handler ever reaches [getZohoAccessToken] or a [fetch]. *)
Definition answers_at_once (h : handler) : option http_response :=
  match h with
  | Respond r => Some r
  | _ => None
  end.

(** ** The subscribe form (src/unnamed/part_000, lines 115-123)

    The browser-side call to the route, the one request of the repository
    that carries an abort signal. *)
Definition formFetch {B} (payload : B) : fetch_request B :=
  {| url := "/api/zoho/subscribe";
     method := "POST";
     headers := [("Content-Type", "application/json")];
     body := payload;
     signal := Some 30000 |}.

(** ** Vocabulary of the statements *)


(** An environment variable that is unset or holds only white space. *)
Definition blank (o : option string) : Prop := JS.truthy (JS.opt_trim o) = false.

(** The cached token is never the empty string. *)
Definition token_ok (c : Cache) : Prop := access_token c <> Some ""%string.

(** The three required variables are set and not blank. *)
Definition configured (env : Env) : Prop :=
  ~ blank (ZOHO_CRM_REFRESH_TOKEN env)
  /\ ~ blank (ZOHO_CRM_CLIENT_ID env)
  /\ ~ blank (ZOHO_CRM_CLIENT_SECRET env).

(** The cache names a promise exactly when that promise is pending, and
    every promise has its one request. *)
Definition coherent (s : State) : Prop :=
  length (fetches s) = length (promises s)
  /\ forall p, refreshPromise (cache s) = Some p <-> promises s !! p = Some None.

(** Callers [k0 .. k0 + n - 1] suspended on promise [p]. *)
Fixpoint join_all (s : State) (k0 n : nat) (p : promise_id) : State :=
  match n with
  | O => s
  | S n' => join_all (set_caller s k0 (AwaitFollower p)) (S k0) n' p
  end.

(** Caller [k] is suspended on promise [p]. *)
Definition awaiting (s : State) (k : nat) (p : promise_id) : Prop :=
  callers s !! k = Some (AwaitLeader p) \/ callers s !! k = Some (AwaitFollower p).


Definition code_is (r : zoho_response) (c : string) : bool :=
  match errorCode_of r with
  | Some x => String.eqb x c
  | None => false
  end.


(** A deployment with a blank client id and no client secret. *)
Definition env_no_secret : Env :=
  {| ZOHO_CRM_REFRESH_TOKEN := Some "1000.refresh"%string;
     ZOHO_CRM_CLIENT_ID := Some "   "%string;
     ZOHO_CRM_CLIENT_SECRET := None;
     ZOHO_CRM_ACCOUNTS_DOMAIN := None;
     NODE_ENV := Some "production"%string |}.

(** A complete deployment, accounts domain left to its default. *)
Definition env_ok : Env :=
  {| ZOHO_CRM_REFRESH_TOKEN := Some "1000.refresh"%string;
     ZOHO_CRM_CLIENT_ID := Some "1000.ID"%string;
     ZOHO_CRM_CLIENT_SECRET := Some "secret"%string;
     ZOHO_CRM_ACCOUNTS_DOMAIN := None;
     NODE_ENV := Some "production"%string |}.

(** A token response of the provider. *)
Definition token_reply (expires_in : option Z) : token_data :=
  {| td_access_token := Some "1000.abc"%string; td_expires_in := expires_in;
     td_error_description := None; td_error := None; td_message := None |}.

(** ** Further vocabulary: the token broker *)

(** The tokens the provider has issued along a run: the [access_token] of
    every 2xx reply that carries a non-empty one. *)
Fixpoint issued (es : list event) : list string :=
  match es with
  | [] => []
  | Settle _ (Parsed true d) _ :: es' =>
      match td_access_token d with
      | Some tok => if String.eqb tok "" then issued es' else tok :: issued es'
      | None => issued es'
      end
  | _ :: es' => issued es'
  end.

(** Every token held by the cache, by a settled promise or by a caller that
    has returned is one of [T]. *)
Definition tokens_within (T : list string) (s : State) : Prop :=
  (forall t, access_token (cache s) = Some t -> t ∈ T)
  /\ (forall p t, promises s !! p = Some (Some (Fulfilled t)) -> t ∈ T)
  /\ (forall k t, callers s !! k = Some (Returned t) -> t ∈ T).

(** Every suspended caller waits on a promise that exists. *)
Definition callers_anchored (s : State) : Prop :=
  forall k p, awaiting s k p -> (p < length (promises s))%nat.

(** ** Further vocabulary: the token URL *)

(** How often a character occurs in a string. *)
Fixpoint count_char (c : ascii) (s : string) : nat :=
  match s with
  | EmptyString => O
  | String d s' => (if Ascii.eqb c d then 1 else 0) + count_char c s'
  end.

(** The value of an upper-case hexadecimal digit. *)
Definition hex_value (c : ascii) : N :=
  let n := N_of_ascii c in
  if (n <? 58)%N then (n - 48)%N else (n - 55)%N.

(** Reading the [%XX] escapes back. *)
Fixpoint percent_decode (s : string) : string :=
  match s with
  | EmptyString => EmptyString
  | String c s' =>
      if Ascii.eqb c "%" then
        match s' with
        | String h (String l s'') =>
            String (ascii_of_N (16 * hex_value h + hex_value l)) (percent_decode s'')
        | _ => String c (percent_decode s')
        end
      else String c (percent_decode s')
  end.

(** ** Further vocabulary: running the POST handler *)

(** The response the handler ends with when token acquisition ends with
    [tok] and the CRM [fetch] with [reply]. *)
Fixpoint answer (h : handler) (tok : token_result) (reply : crm_reply)
  : http_response :=
  match h with
  | Respond r => r
  | AwaitToken k => answer (k tok) tok reply
  | AwaitCrm _ k => answer (k reply) tok reply
  end.

(** The requests the handler sends to the CRM on the way. *)
Fixpoint crm_requests (h : handler) (tok : token_result) (reply : crm_reply)
  : list crm_request :=
  match h with
  | Respond _ => []
  | AwaitToken k => crm_requests (k tok) tok reply
  | AwaitCrm req k => req :: crm_requests (k reply) tok reply
  end.


(** The items of a body the validation lets through. *)
Definition accepted_items (b : request_body) : option (list item) :=
  match b with
  | Body (DataArray (it :: items)) => Some (it :: items)
  | _ => None
  end.

(** ** The subscribe form, state and submission (src/unnamed/part_000, lines 4-214) *)

(** The form's state, [formData]. *)
Record form_data := {
  fd_Name : string;
  fd_Email : string;
  fd_Interests : list string
}.

(** Lines 4-8 *)
Definition initial : form_data :=
  {| fd_Name := ""; fd_Email := ""; fd_Interests := [] |}.


(** Lines 31-49: the update [handleInterestChange] applies to the state;
    [includes] and [!==] compare strings. *)
Definition handleInterestChange (interest : string) (p : form_data) : form_data :=
  let currentInterests := fd_Interests p in
  let isSelected := existsb (String.eqb interest) currentInterests in
  if isSelected then
    {| fd_Name := fd_Name p;
       fd_Email := fd_Email p;
       fd_Interests := filter (fun i => i <> interest) currentInterests |}
  else
    {| fd_Name := fd_Name p;
       fd_Email := fd_Email p;
       fd_Interests := currentInterests ++ [interest] |}.

(** A succession of clicks on interest check boxes, first click first. *)
Definition clicks (cs : list string) (p : form_data) : form_data :=
  foldl (fun q c => handleInterestChange c q) p cs.


(** What the form reads of the route's JSON answer. *)
Record client_json := {
  j_error : option string;
  j_message : option string;
  j_success : option bool;
  j_duplicateField : option string;
  j_zohoItem : option zoho_item;     (* [json?.zohoResponse?.data?.[0]] *)
  j_dataItem : option zoho_item      (* [json?.data?.[0]] *)
}.

(** How the form's [fetch] of the route ends, lines 118-132.  [Json]
    covers the empty text, read as [{}], and [null]: every access is
    [json?.]. *)
Inductive form_reply :=
| Aborted                              (* [fetch] rejects with an AbortError *)
| Failed                               (* [fetch] or [text()] rejects otherwise *)
| BadJson (ok : bool)                  (* the text is not JSON *)
| Json (ok : bool) (json : client_json).

(** [submitStatus] *)
Record submit_status := {
  st_type : string;
  st_message : string;
  st_allErrors : option (list string);
  st_duplicateField : option string
}.

(** Lines 142-145 *)
Definition isZohoSuccess (zohoData : option zoho_item) : bool :=
  let zohoCode := item_field code zohoData in
  let zohoStatus := item_field status zohoData in
  let zohoMessage := item_field message zohoData in
  match zohoCode with Some c => String.eqb c "SUCCESS" | None => false end
  || match zohoStatus with Some st => String.eqb st "success" | None => false end
  || (JS.truthy zohoMessage && JS.test_success (JS.toString zohoMessage)).

(** [/auth/i.test(s)] *)
Definition test_auth (s : string) : bool :=
  JS.includes "auth" (JS.toLowerCase s).

Definition opt_is (o : option string) (c : string) : bool :=
  match o with
  | Some x => String.eqb x c
  | None => false
  end.

(** Lines 135-152 *)
Definition zohoData_of (json : client_json) : option zoho_item :=
  match j_zohoItem json with
  | Some it => Some it
  | None => j_dataItem json
  end.

Definition hasError (ok : bool) (json : client_json) : bool :=
  let zohoData := zohoData_of json in
  negb ok
  || JS.truthy (j_error json)
  || ((opt_is (item_field code zohoData) "DUPLICATE_DATA"
       || opt_is (item_field status zohoData) "error")
      && negb (isZohoSuccess zohoData)).

Definition registered_message : string :=
  "This email address is already registered. Please use a different email address.".

Definition auth_message : string := "Authentication error — contact admin.".

(** Lines 126-211: the status the form shows and the state it is left
    with, for a state [d] at submission. *)
Definition handleResponse (reply : form_reply) (d : form_data)
  : submit_status * form_data :=
  match reply with
  | Aborted =>
      ({| st_type := "error"; st_message := "Request timed out. Please try again.";
          st_allErrors := None; st_duplicateField := None |}, d)
  | Failed | BadJson _ =>
      ({| st_type := "error"; st_message := "An error occurred. Please try again.";
          st_allErrors := None; st_duplicateField := None |}, d)
  | Json ok json =>
      let zohoData := zohoData_of json in
      let zohoCode := item_field code zohoData in
      let duplicateField := j_duplicateField json in
      if hasError ok json && negb (isZohoSuccess zohoData) then
        if opt_is zohoCode "AUTHENTICATION_FAILURE"
           || (JS.truthy (j_error json) && test_auth (JS.toString (j_error json)))
        then
          ({| st_type := "error"; st_message := auth_message;
              st_allErrors := Some [auth_message]; st_duplicateField := None |}, d)
        else if JS.truthy duplicateField then
          ({| st_type := "error"; st_message := "Please fix the following errors:";
              st_allErrors := Some (if opt_is duplicateField "Email"
                                    then [registered_message] else []);
              st_duplicateField := duplicateField |}, d)
        else
          ({| st_type := "error"; st_message := "Please fix the following errors:";
              st_allErrors :=
                Some [JS.or_default (JS.or_else (j_error json) (j_message json))
                                    "Submission failed"];
              st_duplicateField := None |}, d)
      else if isZohoSuccess zohoData
              || match j_success json with Some true => true | _ => false end
      then
        ({| st_type := "success";
            st_message := "Successfully subscribed to newsletter!";
            st_allErrors := None; st_duplicateField := None |}, initial)
      else
        ({| st_type := "error"; st_message := "Submission failed. Please try again.";
            st_allErrors := None; st_duplicateField := None |}, d)
  end.

(** The route's answer as the form receives it.  [res.ok] is a status from
    200 to 299; [json.data] is the CRM's answer itself, an object with no
    element [0]. *)
Definition client_view (res : http_response) : form_reply :=
  let ok := (200 <=? res_status res) && (res_status res <=? 299) in
  match res_body res with
  | ErrorBody error _ =>
      Json ok {| j_error := Some error; j_message := None; j_success := None;
                 j_duplicateField := None; j_zohoItem := None; j_dataItem := None |}
  | SuccessBody success _ zohoResponse _ message =>
      Json ok {| j_error := None; j_message := Some message;
                 j_success := Some success; j_duplicateField := None;
                 j_zohoItem := first_item zohoResponse; j_dataItem := None |}
  | ZohoErrorBody error duplicateField zohoResponse _ =>
      Json ok {| j_error := Some error; j_message := None; j_success := None;
                 j_duplicateField := duplicateField;
                 j_zohoItem := first_item zohoResponse; j_dataItem := None |}
  end.


(** The interests list after one click, as [handleInterestChange] leaves
    it. *)
Definition toggled (c : string) (l : list string) : list string :=
  fd_Interests (handleInterestChange c {| fd_Name := ""; fd_Email := "";
                                          fd_Interests := l |}).

(** The CRM item blames the submission (duplicate code or status "error")
    and carries no success signal of its own: lines 151-152. *)
Definition item_blames (zohoData : option zoho_item) : bool :=
  (opt_is (item_field code zohoData) "DUPLICATE_DATA"
   || opt_is (item_field status zohoData) "error")
  && negb (isZohoSuccess zohoData).

(** ** The insights banner (src/components/Insights/InsidePage/Banner.js) *)

(** [s.split(sep)] for a one-character separator: never empty. *)
Fixpoint split_on (sep : ascii) (s : string) : list string :=
  match s with
  | EmptyString => [EmptyString]
  | String c s' =>
      if Ascii.eqb c sep
      then EmptyString :: split_on sep s'
      else match split_on sep s' with
           | w :: ws => String c w :: ws
           | [] => [String c EmptyString]
           end
  end.

(** [\w] without the [u] flag: [A-Za-z0-9_]. *)
Definition is_word (c : ascii) : bool :=
  let n := N_of_ascii c in
  (((65 <=? n) && (n <=? 90)) || ((97 <=? n) && (n <=? 122))
   || ((48 <=? n) && (n <=? 57)) || (n =? 95))%N.

Definition is_lower (c : ascii) : bool :=
  let n := N_of_ascii c in ((97 <=? n) && (n <=? 122))%N.

(** [c.toUpperCase()] for one character of the ASCII range. *)
Definition upper_ascii (c : ascii) : ascii :=
  if is_lower c then ascii_of_N (N_of_ascii c - 32) else c.

(** [.replace(/[-_]/g, " ")] *)
Fixpoint dashes_to_spaces (s : string) : string :=
  match s with
  | EmptyString => EmptyString
  | String c s' =>
      String (if Ascii.eqb c "-" || Ascii.eqb c "_" then " "%char else c)
             (dashes_to_spaces s')
  end.

(** [.replace(/\b\w/g, (c) => c.toUpperCase())]: a word character is
    replaced when the character before it, if any, is no word character.
    [prev] tells whether the character before is one. *)
Fixpoint capitalize_from (prev : bool) (s : string) : string :=
  match s with
  | EmptyString => EmptyString
  | String c s' =>
      String (if is_word c && negb prev then upper_ascii c else c)
             (capitalize_from (is_word c) s')
  end.

(** Lines 7-14: [url.split("/").pop().split(".")[0]], then the two
    replacements. *)
Definition getAltText (url : string) : string :=
  let file := List.last (split_on "/" url) EmptyString in
  let stem := List.hd EmptyString (split_on "." file) in
  capitalize_from false (dashes_to_spaces stem).

(** No lower-case letter starts a word of [s]; [prev] as above. *)
Fixpoint title_cased_from (prev : bool) (s : string) : bool :=
  match s with
  | EmptyString => true
  | String c s' =>
      negb (is_lower c && negb prev) && title_cased_from (is_word c) s'
  end.

(** ** The publication popup
       (src/utils/Forms/PublicationForms/PublicationPopupForm.js) *)

(** A byte that starts one of the white-space characters outside ASCII
    (U+00A0, U+1680, U+2000-200A, U+2028, U+2029, U+202F, U+205F, U+3000,
    U+FEFF in UTF-8). *)
Definition ws_lead (c : ascii) : bool :=
  match N_of_ascii c with
  | 194%N | 225%N | 226%N | 227%N | 239%N => true
  | _ => false
  end.

Definition ws_two (c c2 : ascii) : bool :=
  match N_of_ascii c, N_of_ascii c2 with
  | 194%N, 160%N => true
  | _, _ => false
  end.

Definition ws_three (c c2 c3 : ascii) : bool :=
  let n3 := N_of_ascii c3 in
  match N_of_ascii c, N_of_ascii c2 with
  | 225%N, 154%N => (n3 =? 128)%N
  | 226%N, 128%N =>
      (((128 <=? n3) && (n3 <=? 138)) || (n3 =? 168) || (n3 =? 169) || (n3 =? 175))%N
  | 226%N, 129%N => (n3 =? 159)%N
  | 227%N, 128%N => (n3 =? 128)%N
  | 239%N, 187%N => (n3 =? 191)%N
  | _, _ => false
  end.

(** The leading white space [parseInt] skips: every [StrWhiteSpaceChar]. *)
Fixpoint skipWhiteSpace (s : string) : string :=
  match s with
  | EmptyString => EmptyString
  | String c s1 =>
      if JS.is_ws c then skipWhiteSpace s1
      else if ws_lead c then
        match s1 with
        | String c2 s2 =>
            if ws_two c c2 then skipWhiteSpace s2
            else match s2 with
                 | String c3 s3 =>
                     if ws_three c c2 c3 then skipWhiteSpace s3 else s
                 | EmptyString => s
                 end
        | EmptyString => s
        end
      else s
  end.

Definition digit_value (c : ascii) : option Z :=
  let n := N_of_ascii c in
  if ((48 <=? n) && (n <=? 57))%N then Some (Z.of_N n - 48) else None.

(** The value of the longest prefix of decimal digits; [seen] tells
    whether a digit has been read, [None] is [NaN]. *)
Fixpoint parse_digits (seen : bool) (acc : Z) (s : string) : option Z :=
  match s with
  | EmptyString => if seen then Some acc else None
  | String c s' =>
      match digit_value c with
      | Some d => parse_digits true (10 * acc + d) s'
      | None => if seen then Some acc else None
      end
  end.

(** [parseInt(s, 10)]: leading white space, an optional sign, then the
    longest run of decimal digits; [None] is [NaN].  The value is exact
    below 2^53; beyond, JavaScript rounds it to the nearest double, which
    leaves the comparison of line 28 as it is for any clock value. *)
Definition parseInt (s : string) : option Z :=
  match skipWhiteSpace s with
  | String c s' =>
      if Ascii.eqb c "-" then option_map Z.opp (parse_digits false 0 s')
      else if Ascii.eqb c "+" then parse_digits false 0 s'
      else parse_digits false 0 (String c s')
  | EmptyString => None
  end.

(** [n.toString()] for an integer below 10^21 in absolute value, where
    JavaScript writes all the digits. *)
Definition numberToString (n : Z) : string :=
  DecimalString.NilEmpty.string_of_int (Z.to_int n).

(** [item]: the fields the popup reads, [item?.acf?.publication_url] and
    [item?.slug]. *)
Record publication := {
  publication_url : option string;
  slug : option string
}.

(** Lines 42-46 and 130-134: where the browser is sent. *)
Definition redirect_target (item : publication) : option string :=
  if JS.truthy (publication_url item) then publication_url item
  else if JS.truthy (slug item)
       then Some ("/publications/" +:+ JS.toString (slug item))
       else None.

Definition ninety_days : Z := 90 * 24 * 60 * 60 * 1000.

(** Lines 22-29: the visitor has submitted the form in the last 90 days.
    [localStorage] is a map from keys to strings. *)
Definition remembered (localStorage : gmap string string) (now : Z) : bool :=
  let storedEmail := localStorage !! "publication_user_email"%string in
  let lastSubmission := localStorage !! "publication_form_submission"%string in
  JS.truthy storedEmail && JS.truthy lastSubmission
  && match parseInt (JS.toString lastSubmission) with
     | Some t => now - t <? ninety_days
     | None => false
     end.

(** Lines 21-51: what the popup does when it mounts. *)
Inductive popup_view :=
| ShowForm
| Redirecting (target : option string).

Definition on_mount (localStorage : gmap string string) (now : Z)
  (item : publication) : popup_view :=
  if remembered localStorage now then Redirecting (redirect_target item)
  else ShowForm.

(** [formData] of the popup. *)
Record popup_form := {
  pf_name : string;
  pf_email : string
}.

(** How the check against the CRM ends, lines 81-111.  [ZohoCheckThrows]
    is any exception of the inner [try]: a rejected [fetch], a body that
    is no JSON, the body [null]. *)
Inductive zoho_check :=
| ZohoCheckThrows
| ZohoCheckAnswer (ok : bool) (error duplicateField zohoErrorCode : option string).

(** How the WordPress request ends, lines 114-122. *)
Inductive wp_result :=
| WpThrows
| WpAnswer (ok : bool).

(** What [handleSubmit] leaves behind. *)
Record submit_result := {
  sr_error : string;
  sr_zoho_called : bool;
  sr_wordpress_called : bool;
  sr_storage : gmap string string;
  sr_redirect : option string;
  sr_loading : bool
}.

(** Lines 92-99 *)
Definition is_duplicate (z : zoho_check) : bool :=
  match z with
  | ZohoCheckThrows => false
  | ZohoCheckAnswer ok error duplicateField zohoErrorCode =>
      (negb ok || JS.truthy error)
      && (opt_is duplicateField "Email" || opt_is zohoErrorCode "DUPLICATE_DATA")
  end.

(** Lines 53-142.  [now] is the [Date.now()] of line 126;
    [localStorage.setItem] is taken to succeed. *)
Definition popup_handleSubmit (formData : popup_form)
  (localStorage : gmap string string) (item : publication)
  (z : zoho_check) (w : wp_result) (now : Z) : submit_result :=
  if String.eqb (pf_name formData) "" || String.eqb (pf_email formData) "" then
    {| sr_error := "Please fill in all fields"; sr_zoho_called := false;
       sr_wordpress_called := false; sr_storage := localStorage;
       sr_redirect := None; sr_loading := false |}
  else if is_duplicate z then
    {| sr_error :=
         match z with
         | ZohoCheckAnswer _ error _ _ => JS.or_default error registered_message
         | ZohoCheckThrows => registered_message
         end;
       sr_zoho_called := true; sr_wordpress_called := false;
       sr_storage := localStorage; sr_redirect := None; sr_loading := false |}
  else
    match w with
    | WpThrows =>
        {| sr_error := "An error occurred. Please try again.";
           sr_zoho_called := true; sr_wordpress_called := true;
           sr_storage := localStorage; sr_redirect := None; sr_loading := false |}
    | WpAnswer false =>
        {| sr_error := ""; sr_zoho_called := true; sr_wordpress_called := true;
           sr_storage := localStorage; sr_redirect := None; sr_loading := false |}
    | WpAnswer true =>
        {| sr_error := ""; sr_zoho_called := true; sr_wordpress_called := true;
           sr_storage :=
             <["publication_form_submission"%string := numberToString now]>
               (<["publication_user_email"%string := pf_email formData]> localStorage);
           sr_redirect := redirect_target item; sr_loading := false |}
    end.

(** A string that does not go on with a decimal digit. *)
Definition no_digit_head (s : string) : Prop :=
  match s with
  | EmptyString => True
  | String c _ => digit_value c = None
  end.

(** ** The subscribe form: validation (src/unnamed/part_000, lines 57-97) *)

(** Regular expressions, as far as the form uses them, matched by
    derivatives. *)
Inductive regex :=
| Fail
| Eps
| Chars (p : ascii -> bool)
| Seq (r1 r2 : regex)
| Alt (r1 r2 : regex)
| Star (r : regex).

(** [r+] *)
Definition Plus (r : regex) : regex := Seq r (Star r).

Fixpoint nullable (r : regex) : bool :=
  match r with
  | Fail => false
  | Eps => true
  | Chars _ => false
  | Seq r1 r2 => nullable r1 && nullable r2
  | Alt r1 r2 => nullable r1 || nullable r2
  | Star _ => true
  end.

Fixpoint deriv (c : ascii) (r : regex) : regex :=
  match r with
  | Fail => Fail
  | Eps => Fail
  | Chars p => if p c then Eps else Fail
  | Seq r1 r2 =>
      if nullable r1 then Alt (Seq (deriv c r1) r2) (deriv c r2)
      else Seq (deriv c r1) r2
  | Alt r1 r2 => Alt (deriv c r1) (deriv c r2)
  | Star r' => Seq (deriv c r') (Star r')
  end.

(** [/^r$/.test(s)] *)
Fixpoint matches (r : regex) (s : string) : bool :=
  match s with
  | EmptyString => nullable r
  | String c s' => matches (deriv c r) s'
  end.


(** [[^\s@]], with [\s] on the ASCII range as [trim] has it. *)
Definition not_space_or_at (c : ascii) : bool :=
  negb (JS.is_ws c || Ascii.eqb c "@").

(** Line 69: [/^[^\s@]+@[^\s@]+\.[^\s@]+$/] *)
Definition emailRegex : regex :=
  Seq (Plus (Chars not_space_or_at))
      (Seq (Chars (fun c => Ascii.eqb c "@"))
           (Seq (Plus (Chars not_space_or_at))
                (Seq (Chars (fun c => Ascii.eqb c "."))
                     (Plus (Chars not_space_or_at))))).

(** What [validate] returns: [errors] and the three entries of
    [fieldErrors]. *)
Record validation := {
  errors : list string;
  fe_Name : option string;
  fe_Email : option string;
  fe_Interests : option string
}.

(** [errors.push(e)] when there is an error [e]. *)
Definition pushed (e : option string) : list string :=
  match e with
  | Some msg => [msg]
  | None => []
  end.

(** Lines 57-81 *)
Definition validate (d : form_data) : validation :=
  let name_error :=
    if String.eqb (JS.trim (fd_Name d)) "" then Some "Name is required"%string
    else None in
  let email_error :=
    if String.eqb (JS.trim (fd_Email d)) "" then Some "Email is required"%string
    else if negb (matches emailRegex (fd_Email d))
         then Some "Please enter a valid email address"%string
         else None in
  let interests_error :=
    match fd_Interests d with
    | [] => Some "Please select at least one interest"%string
    | _ => None
    end in
  {| errors := pushed name_error ++ pushed email_error ++ pushed interests_error;
     fe_Name := name_error;
     fe_Email := email_error;
     fe_Interests := interests_error |}.



(** ** One request served from end to end

    The POST handler run against the token cache, one request at a time:
    the call of [getZohoAccessToken], then, when the caller has to wait,
    the provider's reply [preply] at time [tnow] and the caller's
    resumption, then the CRM's [reply]. *)




(** * Properties *)

(** ** Strings *)

Section Trim.









End Trim.

Lemma nonempty_true (s : string) : nonempty s = true <-> s <> ""%string.
Proof.
  unfold nonempty. destruct (String.eqb_spec s ""); simpl; split; congruence.
Qed.

Lemma truthy_Some (s : string) : JS.truthy (Some s) = true <-> s <> ""%string.
Proof. apply nonempty_true. Qed.

Example trim_ex : JS.trim "  Corporate Advisory	 " = "Corporate Advisory"%string.
Proof. reflexivity. Qed.

Example split_ex : JS.split_comma "a, b,,c" = ["a"; " b"; ""; "c"]%string.
Proof. reflexivity. Qed.

Example split_empty_ex : JS.split_comma "" = [""%string].
Proof. reflexivity. Qed.

Example encode_ex : JS.encodeURIComponent "a b/1000.x" = "a%20b%2F1000.x"%string.
Proof. reflexivity. Qed.

Example test_email_ex : JS.test_email (Some "duplicate data: EMail"%string) = true.
Proof. reflexivity. Qed.

Example test_email_undefined : JS.test_email None = false.
Proof. reflexivity. Qed.

(** ** Interests (C5) *)





(** ** The cached credential (C2) *)

Lemma readIfValid_Some (c : Cache) (now : Z) (t : string) :
  0 <= now ->
  readIfValid c now = Some t
  <-> access_token c = Some t /\ t <> ""%string /\ now < expires_at c - 30000.
Proof.
  intros Hnow. unfold readIfValid.
  destruct (access_token c) as [tok|]; [|split; [discriminate | intros [? _]; discriminate]].
  destruct (String.eqb_spec tok ""); simpl.
  - split; [discriminate | intros (E & Hne & _); congruence].
  - destruct (Z.eqb_spec (expires_at c) 0) as [E0|E0]; simpl.
    + split; [discriminate | intros (_ & _ & Hlt); lia].
    + destruct (Z.ltb_spec now (expires_at c - 30000)).
      * split; [intros [= <-]; auto | intros (E & _ & _); exact E].
      * split; [discriminate | intros (_ & _ & Hlt); lia].
Qed.

Lemma token_ok_step (env : Env) (s s' : State) (e : event) :
  token_ok (cache s) -> step env s e = Some s' -> token_ok (cache s').
Proof.
  unfold token_ok. intros Hs Hstep.
  destruct e as [k now | p reply now | k]; simpl in Hstep.
  - destruct (callers s !! k); [discriminate|]. injection Hstep as <-.
    unfold step_call. destruct (getZohoAccessToken env (cache s) now); exact Hs.
  - destruct (promises s !! p) as [[o|]|]; try discriminate.
    injection Hstep as <-. unfold step_settle, refresh_settle, refresh_try.
    destruct reply as [reason | ok text | ok | ok d]; simpl; try exact Hs.
    destruct (negb ok || negb (JS.truthy (td_access_token d))) eqn:E;
      simpl; [exact Hs|].
    apply orb_false_elim in E. destruct E as [_ E].
    apply negb_false_iff in E.
    destruct (td_access_token d) as [tok|]; [|discriminate].
    apply truthy_Some in E. simpl. congruence.
  - unfold step_resume in Hstep.
    destruct (callers s !! k) as [[p|p|?|?]|]; try discriminate;
      destruct (settled s p) as [[tok|msg]|]; try discriminate;
      injection Hstep as <-; simpl; try exact Hs; discriminate.
Qed.

(** The cache never holds an empty token. *)
Lemma token_ok_run (env : Env) (es : list event) (s s' : State) :
  token_ok (cache s) -> run env s es = Some s' -> token_ok (cache s').
Proof.
  revert s. induction es as [|e es IH]; intros s Hs; simpl.
  - intros [= <-]. exact Hs.
  - destruct (step env s e) as [s1|] eqn:E; [|discriminate].
    apply IH. eapply token_ok_step; eauto.
Qed.

(** C2: in every state the process reaches, the cached token is returned
    exactly when it is present and the current time is strictly before its
    expiry minus 30 seconds; a token expiring in 10 seconds is not returned
    (the call is no cache hit), one expiring in 31 seconds is returned in the
    first segment, before any request. *)
Theorem expiry_respected (env : Env) (es : list event) (s : State) (now : Z) :
  run env (init initial_cache) es = Some s ->
  0 <= now ->
  (forall t,
      readIfValid (cache s) now = Some t
      <-> access_token (cache s) = Some t /\ now < expires_at (cache s) - 30000)
  /\ (expires_at (cache s) = now + 10000 ->
      readIfValid (cache s) now = None
      /\ forall t, getZohoAccessToken env (cache s) now <> Hit t)
  /\ (forall tok,
         access_token (cache s) = Some tok ->
         expires_at (cache s) = now + 31000 ->
         readIfValid (cache s) now = Some tok
         /\ getZohoAccessToken env (cache s) now = Hit tok).
Proof.
  intros Hrun Hnow.
  assert (Hok : token_ok (cache s)).
  { eapply token_ok_run; [|exact Hrun]. discriminate. }
  assert (Hiff : forall t,
             readIfValid (cache s) now = Some t
             <-> access_token (cache s) = Some t
                 /\ now < expires_at (cache s) - 30000).
  { intros t. rewrite (readIfValid_Some _ _ _ Hnow). unfold token_ok in Hok.
    split; [intros (H1 & _ & H3); auto | intros (H1 & H3)].
    repeat split; try assumption. congruence. }
  split; [exact Hiff|]. split.
  - intros He.
    assert (Hn : readIfValid (cache s) now = None).
    { apply eq_None_not_Some. intros [t E]. apply Hiff in E. lia. }
    split; [exact Hn|]. intros t. unfold getZohoAccessToken. rewrite Hn.
    destruct (refreshPromise (cache s)); [discriminate|].
    destruct (_ || _); discriminate.
  - intros tok Ht He.
    assert (Hv : readIfValid (cache s) now = Some tok).
    { apply Hiff. split; [exact Ht | lia]. }
    split; [exact Hv|]. unfold getZohoAccessToken. rewrite Hv. reflexivity.
Qed.

Lemma expiry_respected_witness :
  exists s,
    run env_ok (init initial_cache)
        [Call 0 1700000000000;
         Settle 0 (Parsed true (token_reply (Some 3600))) 1700000000400] = Some s
    /\ expires_at (cache s) = 1700003569400 + 31000
    /\ getZohoAccessToken env_ok (cache s) 1700003569400 = Hit "1000.abc".
Proof.
  eexists. split; [vm_compute; reflexivity|]. split; [reflexivity|].
  eapply (expiry_respected env_ok
            [Call 0 1700000000000;
             Settle 0 (Parsed true (token_reply (Some 3600))) 1700000000400]
            _ 1700003569400).
  - vm_compute. reflexivity.
  - lia.
  - reflexivity.
  - reflexivity.
Defined.

(** ** Duplicate detection (C4) *)

Lemma field_or_default_Email (f : option string) :
  (f = None \/ f = Some "Email"%string) -> field_or_default f = Some "Email"%string.
Proof. intros [-> | ->]; reflexivity. Qed.

Lemma field_from_details_cases (d : option zoho_details) :
  field_from_details d = None \/ field_from_details d = Some "Email"%string.
Proof.
  unfold field_from_details. destruct d as [d|]; [|left; reflexivity].
  destruct (JS.truthy (api_name d)); [|left; reflexivity].
  destruct (_ || _); [right | left]; reflexivity.
Qed.

Lemma field_from_message_cases (f m : option string) :
  (f = None \/ f = Some "Email"%string) ->
  field_from_message f m = None \/ field_from_message f m = Some "Email"%string.
Proof.
  intros Hf. unfold field_from_message.
  destruct (_ && _); [right; reflexivity | exact Hf].
Qed.

Lemma duplicate_field_Email (errorMessage : option string)
  (errorDetails : option zoho_details) :
  field_or_default
    (field_from_message (field_from_details errorDetails) errorMessage)
  = Some "Email"%string.
Proof.
  apply field_or_default_Email, field_from_message_cases, field_from_details_cases.
Qed.

(** C4: for every duplicate-data error the duplicated field is looked for in
    [details.api_name] first, then by a case-insensitive search for "email"
    in the message, then defaulted; the returned [duplicateField] is never
    null, it is "Email" with status 409, also when there is no [api_name]
    and the message contains "email". *)
Theorem duplicate_field_never_null (errorMessage : option string)
  (errorDetails : option zoho_details) :
  let r := mapZohoError (Some "DUPLICATE_DATA"%string) errorMessage errorDetails in
  em_duplicateField r
    = field_or_default
        (field_from_message (field_from_details errorDetails) errorMessage)
  /\ em_duplicateField r <> None
  /\ em_duplicateField r = Some "Email"%string
  /\ em_status r = 409
  /\ (field_from_details errorDetails = Some "Email"%string
      \/ field_from_details errorDetails = None
         /\ (field_from_message None errorMessage = Some "Email"%string
               /\ JS.test_email errorMessage = true
             \/ field_from_message None errorMessage = None
                /\ JS.test_email errorMessage = false
                /\ field_or_default None = Some "Email"%string)).
Proof.
  simpl. rewrite duplicate_field_Email. repeat split; try discriminate.
  destruct (field_from_details_cases errorDetails) as [-> | ->]; [right | left; reflexivity].
  split; [reflexivity|]. unfold field_from_message. simpl.
  destruct (JS.test_email errorMessage); [left | right]; repeat split; reflexivity.
Qed.

Example duplicate_by_message :
  mapZohoError (Some "DUPLICATE_DATA"%string) (Some "duplicate data in Email"%string)
               (Some {| api_name := None; id := Some "4876876000000624001"%string |})
  = {| em_message := already_subscribed;
       em_duplicateField := Some "Email"%string;
       em_status := 409 |}.
Proof. reflexivity. Qed.

(** ** Configuration (C6) *)

Lemma blank_dec (o : option string) : {blank o} + {~ blank o}.
Proof. unfold blank. destruct (JS.truthy (JS.opt_trim o)); [right | left]; congruence. Qed.




(** ** Installing the credential (C9) *)

(** C9, as the route has it: on every successful token exchange (a 2xx
    response whose JSON carries a non-empty [access_token]) the token is
    installed with expiry [Date.now() + expires_in * 1000]; [expires_in] is
    taken as 3600 when it is absent and also when it is 0. *)
Theorem credential_installed (d : token_data) (tok : string) (now : Z) (c : Cache) :
  td_access_token d = Some tok -> tok <> ""%string ->
  let (o, c') := refresh_settle (Parsed true d) now c in
  o = Fulfilled tok
  /\ access_token c' = Some tok
  /\ refreshPromise c' = None
  /\ match td_expires_in d with
     | None => expires_at c' = now + 3600 * 1000
     | Some n => if n =? 0 then expires_at c' = now + 3600 * 1000
                 else expires_at c' = now + n * 1000
     end.
Proof.
  intros Htok Hne. unfold refresh_settle, refresh_try. rewrite Htok.
  apply truthy_Some in Hne. rewrite Hne. simpl.
  repeat split. unfold expiresIn.
  destruct (td_expires_in d) as [n|]; [|reflexivity].
  destruct (n =? 0); reflexivity.
Qed.

Lemma credential_installed_witness :
  refresh_settle (Parsed true (token_reply (Some 1800))) 1700000000000
                 (store_promise initial_cache 0%nat)
  = (Fulfilled "1000.abc",
     {| access_token := Some "1000.abc"%string;
        expires_at := 1700000000000 + 1800 * 1000;
        refreshPromise := None |}).
Proof.
  pose proof (credential_installed (token_reply (Some 1800)) "1000.abc" 1700000000000
                (store_promise initial_cache 0%nat) eq_refl) as H.
  destruct (refresh_settle _ _ _) as [o c'].
  destruct H as (-> & Ht & Hp & He); [discriminate|].
  destruct c' as [t e p]; simpl in *. subst. reflexivity.
Defined.

(** C9 as stated fails: with [expires_in] present and equal to 0 the stored
    expiry is not the current time plus 0 seconds, but one hour later. *)
Lemma zero_expires_in_defaults :
  let c' := snd (refresh_settle (Parsed true (token_reply (Some 0))) 1700000000000
                                (store_promise initial_cache 0%nat)) in
  expires_at c' <> 1700000000000 + 0 * 1000
  /\ expires_at c' = 1700000000000 + 3600 * 1000.
Proof. split; [discriminate | reflexivity]. Qed.

(** ** Status codes (C7) *)


(** ** Request validation (C10) *)

(** A body that is a JSON value other than [null] and whose [data] is
    absent, not an array, or an empty array is answered at once with 400:
    the handler reaches neither [getZohoAccessToken] nor a [fetch]. *)
Lemma invalid_body_rejected (env : Env) (d : data_field) :
  d = NoData \/ d = NotArray \/ d = DataArray [] ->
  POST env (Body d) = Respond invalid_format
  /\ res_status invalid_format = 400
  /\ res_body invalid_format
     = ErrorBody "Invalid request format. Expected { data: [...] }" None.
Proof. intros [-> | [-> | ->]]; repeat split. Qed.

(** A body with at least one item goes on to token acquisition. *)
Lemma valid_body_awaits_token (env : Env) (it : item) (items : list item) :
  answers_at_once (POST env (Body (DataArray (it :: items)))) = None.
Proof. reflexivity. Qed.

(** C10 at the body [null]: it has no [data] field, yet [body.data] throws
    and the catch-all answers 500 "Internal server error", not 400 "Invalid
    request format".  Nothing is fetched and the cache is not touched. *)
Theorem null_body_internal_error (env : Env) :
  answers_at_once (POST env BodyNull)
  = Some (internal_error env "Cannot read properties of null (reading 'data')")
  /\ res_status (internal_error env
                   "Cannot read properties of null (reading 'data')") = 500
  /\ POST env BodyNull <> Respond invalid_format.
Proof. repeat split. simpl. unfold internal_error, invalid_format. congruence. Qed.

(** ** The event loop: one refresh in flight at a time *)

Section EventLoop.

Variable env : Env.

Lemma run_app (es1 es2 : list event) (s : State) :
  run env s (es1 ++ es2)
  = match run env s es1 with
    | Some s' => run env s' es2
    | None => None
    end.
Proof.
  revert s. induction es1 as [|e es1 IH]; intros s; simpl; [reflexivity|].
  destruct (step env s e); [apply IH | reflexivity].
Qed.

Lemma enter_Lead_inv (c : Cache) (now : Z) (req : token_request) :
  getZohoAccessToken env c now = Lead req ->
  readIfValid c now = None /\ refreshPromise c = None /\ signal req = None.
Proof.
  unfold getZohoAccessToken. destruct (readIfValid c now); [discriminate|].
  destruct (refreshPromise c); [discriminate|].
  destruct (_ || _); [discriminate|]. intros [= <-]. repeat split.
Qed.

Lemma enter_Lead (c : Cache) (now : Z) :
  configured env -> readIfValid c now = None -> refreshPromise c = None ->
  exists req, getZohoAccessToken env c now = Lead req.
Proof.
  intros (H1 & H2 & H3) Hv Hp. unfold getZohoAccessToken. rewrite Hv, Hp.
  unfold blank in *.
  apply not_false_is_true in H1, H2, H3. rewrite H1, H2, H3. simpl. eauto.
Qed.

Lemma enter_Join (c : Cache) (now : Z) (p : promise_id) :
  readIfValid c now = None -> refreshPromise c = Some p ->
  getZohoAccessToken env c now = Join p.
Proof. intros Hv Hp. unfold getZohoAccessToken. rewrite Hv, Hp. reflexivity. Qed.

Lemma readIfValid_store (c : Cache) (p : promise_id) (now : Z) :
  readIfValid (store_promise c p) now = readIfValid c now.
Proof. reflexivity. Qed.

Lemma refresh_settle_releases (reply : provider_reply) (now : Z) (c : Cache) :
  refreshPromise (snd (refresh_settle reply now c)) = None.
Proof.
  unfold refresh_settle. destruct (refresh_try reply now c). reflexivity.
Qed.

(** *** Coherence is kept by every event *)

Lemma coherent_init (c : Cache) : refreshPromise c = None -> coherent (init c).
Proof.
  intros Hc. split; [reflexivity|]. intros p. simpl. rewrite Hc.
  split; discriminate.
Qed.

Lemma coherent_step (s s' : State) (e : event) :
  coherent s -> step env s e = Some s' -> coherent s'.
Proof.
  intros [Hlen Hco] Hstep. destruct e as [k now | p reply now | k]; simpl in Hstep.
  - destruct (callers s !! k); [discriminate|]. injection Hstep as <-.
    unfold step_call. destruct (getZohoAccessToken env (cache s) now) eqn:E;
      try (split; [exact Hlen | exact Hco]).
    apply enter_Lead_inv in E. destruct E as (_ & Hnone & _).
    split; simpl; [rewrite !length_app; simpl; lia|].
    intros p. split.
    + intros [= <-]. rewrite lookup_app_r by lia.
      rewrite Nat.sub_diag. reflexivity.
    + intros Hp. destruct (decide (p < length (promises s))%nat) as [Hlt|Hge].
      * rewrite lookup_app_l in Hp by exact Hlt.
        apply Hco in Hp. congruence.
      * apply lookup_lt_Some in Hp. rewrite length_app in Hp. simpl in Hp.
        f_equal. lia.
  - destruct (promises s !! p) as [[o|]|] eqn:Hp; try discriminate.
    injection Hstep as <-. unfold step_settle.
    pose proof (refresh_settle_releases reply now (cache s)) as Hrel.
    destruct (refresh_settle reply now (cache s)) as [o c]. simpl in Hrel.
    split; simpl; [rewrite length_insert; exact Hlen|].
    intros q. rewrite Hrel. split; [discriminate|]. intros Hq.
    destruct (decide (p = q)) as [->|Hne].
    + rewrite list_lookup_insert_eq in Hq by (eapply lookup_lt_Some; eauto).
      discriminate.
    + rewrite list_lookup_insert_ne in Hq by exact Hne.
      apply Hco in Hq. apply Hco in Hp. congruence.
  - unfold step_resume in Hstep.
    destruct (callers s !! k) as [[p|p|?|?]|]; try discriminate;
      destruct (settled s p) as [[tok|msg]|]; try discriminate;
      injection Hstep as <-; split; assumption.
Qed.

Lemma coherent_run (es : list event) (s s' : State) :
  coherent s -> run env s es = Some s' -> coherent s'.
Proof.
  revert s. induction es as [|e es IH]; intros s Hs; simpl.
  - intros [= <-]. exact Hs.
  - destruct (step env s e) as [s1|] eqn:E; [|discriminate].
    apply IH. eapply coherent_step; eauto.
Qed.

(** Two refreshes are never in flight together. *)
Lemma coherent_one_pending (s : State) (p q : promise_id) :
  coherent s ->
  promises s !! p = Some None -> promises s !! q = Some None -> p = q.
Proof. intros [_ Hco] Hp Hq. apply Hco in Hp, Hq. congruence. Qed.

End EventLoop.

Section Scenario.

Variable env : Env.

Lemma join_all_fields (n k0 : nat) (s : State) (p : promise_id) :
  cache (join_all s k0 n p) = cache s
  /\ promises (join_all s k0 n p) = promises s
  /\ fetches (join_all s k0 n p) = fetches s.
Proof.
  revert k0 s. induction n as [|n IH]; intros k0 s; simpl; [auto|].
  destruct (IH (S k0) (set_caller s k0 (AwaitFollower p))) as (-> & -> & ->).
  auto.
Qed.

Lemma join_all_callers (n k0 : nat) (s : State) (p : promise_id) (k : nat) :
  callers (join_all s k0 n p) !! k
  = if decide (k0 <= k < k0 + n)%nat then Some (AwaitFollower p)
    else callers s !! k.
Proof.
  revert k0 s. induction n as [|n IH]; intros k0 s; simpl.
  - case_decide; [lia | reflexivity].
  - rewrite IH. simpl. repeat case_decide; try reflexivity; try lia.
    + assert (k = k0) as -> by lia. apply lookup_insert_eq.
    + apply lookup_insert_ne. lia.
Qed.

(** Callers that arrive while refresh [p] is in flight all suspend on
    [p]; none of them sends a request. *)
Lemma followers_join (nows : list Z) (k0 : nat) (s : State) (p : promise_id)
  (rest : list event) :
  refreshPromise (cache s) = Some p ->
  Forall (fun now => readIfValid (cache s) now = None) nows ->
  (forall k, (k0 <= k)%nat -> callers s !! k = None) ->
  run env s (calls_from k0 nows ++ rest)
  = run env (join_all s k0 (length nows) p) rest.
Proof.
  revert k0 s. induction nows as [|now nows IH]; intros k0 s Hp Hv Hfresh;
    simpl; [reflexivity|].
  rewrite (Hfresh k0) by lia. unfold step_call.
  apply Forall_cons in Hv. destruct Hv as [Hnow Hv].
  rewrite (enter_Join env _ _ p Hnow Hp).
  apply IH; simpl; try assumption.
  intros k Hk. rewrite lookup_insert_ne by lia. apply Hfresh. lia.
Qed.

(** Once [p] has settled with [o], every caller suspended on it resumes
    with [o], in whatever order. *)
Lemma resume_all (order : list nat) (s : State) (p : promise_id) (o : outcome) :
  NoDup order ->
  settled s p = Some o ->
  (forall k, k ∈ order -> awaiting s k p) ->
  exists s',
    run env s (map Resume order) = Some s'
    /\ fetches s' = fetches s
    /\ promises s' = promises s
    /\ refreshPromise (cache s') = refreshPromise (cache s)
    /\ (forall k, k ∈ order -> callers s' !! k ≫= result_of = Some o)
    /\ (forall k, k ∉ order -> callers s' !! k = callers s !! k).
Proof.
  revert s. induction order as [|k order IH]; intros s Hnd Hset Hw; simpl.
  - exists s. repeat split; try reflexivity. intros k Hk. inversion Hk.
  - apply NoDup_cons in Hnd. destruct Hnd as [Hk Hnd].
    assert (Hstep : exists s1,
               step_resume s k = Some s1
               /\ fetches s1 = fetches s /\ promises s1 = promises s
               /\ refreshPromise (cache s1) = refreshPromise (cache s)
               /\ callers s1 !! k ≫= result_of = Some o
               /\ forall k', k' <> k -> callers s1 !! k' = callers s !! k').
    { unfold step_resume.
      destruct (Hw k) as [E | E]; [left | |]; rewrite E, Hset; destruct o;
        eexists; (split; [reflexivity|]); simpl; rewrite lookup_insert_eq;
        repeat split; intros k' Hne; apply lookup_insert_ne; congruence. }
    destruct Hstep as (s1 & -> & Hf1 & Hp1 & Hr1 & Hk1 & Ho1).
    destruct (IH s1 Hnd) as (s' & Hrun & Hf & Hp & Hr & Hin & Hout).
    + unfold settled in *. rewrite Hp1. exact Hset.
    + intros k' Hk'. unfold awaiting. rewrite Ho1 by (intros ->; contradiction).
      apply Hw. right. exact Hk'.
    + exists s'. split; [exact Hrun|]. rewrite Hf, Hp, Hr.
      repeat split; try assumption.
      * intros k' Hk'. apply elem_of_cons in Hk'. destruct Hk' as [-> | Hk'].
        -- rewrite (Hout k Hk). exact Hk1.
        -- apply Hin, Hk'.
      * intros k' Hk'. apply not_elem_of_cons in Hk'. destruct Hk' as [Hne Hk'].
        rewrite (Hout k' Hk'). apply Ho1, Hne.
Qed.

End Scenario.

(** The first caller on a cache with no valid token and no refresh in
    flight starts refresh 0 and sends its request. *)
Lemma first_call (env : Env) (c : Cache) (now : Z) (req : token_request) :
  getZohoAccessToken env c now = Lead req ->
  step env (init c) (Call 0 now)
  = Some {| cache := store_promise c 0; promises := [None]; fetches := [req];
            callers := <[0%nat := AwaitLeader 0]> ∅ |}.
Proof.
  intros Hreq. unfold init. simpl. rewrite lookup_empty.
  unfold step_call. simpl. rewrite Hreq. reflexivity.
Qed.

(** ** Single flight (C1) *)

(** C1, as the route has it: when the three required variables are set and
    no refresh is in flight yet, for every N >= 1 calls of
    [getZohoAccessToken] that begin, in any succession, before the refresh
    settles and find no valid cached token, exactly one request is sent to
    the token endpoint: the first caller starts the refresh, every later one
    suspends on that same promise, and when it settles all N callers end
    with the same outcome, the same token or the same error, in whatever
    order they resume.  More generally, from a cache with no refresh in
    flight no succession of events leads to two pending refreshes. *)
Theorem single_flight (env : Env) (c : Cache) (now0 : Z) (nows : list Z)
  (reply : provider_reply) (tnow : Z) (order : list nat) :
  configured env ->
  refreshPromise c = None ->
  Forall (fun now => readIfValid c now = None) (now0 :: nows) ->
  Permutation order (seq 0 (S (length nows))) ->
  (exists s o,
      run env (init c)
          (calls_from 0 (now0 :: nows) ++ Settle 0%nat reply tnow :: map Resume order)
      = Some s
      /\ length (fetches s) = 1%nat
      /\ promises s = [Some o]
      /\ forall k, (k < S (length nows))%nat ->
                   callers s !! k ≫= result_of = Some o)
  /\ (forall es s p q,
         run env (init c) es = Some s ->
         promises s !! p = Some None -> promises s !! q = Some None -> p = q).
Proof.
  intros Hcfg Hnone Hv Hperm. split.
  2:{ intros es s p q Hrun. eapply coherent_one_pending, coherent_run; eauto.
      apply coherent_init, Hnone. }
  apply Forall_cons in Hv. destruct Hv as [Hv0 Hv].
  destruct (enter_Lead env c now0 Hcfg Hv0 Hnone) as [req Hreq].
  (* the leader *)
  change (calls_from 0 (now0 :: nows)) with (Call 0 now0 :: calls_from 1 nows).
  cbn [app run]. rewrite (first_call env c now0 req Hreq).
  set (s1 := {| cache := store_promise c 0; promises := [None];
                fetches := [req]; callers := <[0%nat := AwaitLeader 0]> ∅ |}).
  (* the followers *)
  rewrite (followers_join env nows 1 s1 0%nat); cycle 1.
  { reflexivity. }
  { exact Hv. }
  { intros k Hk. subst s1. simpl. rewrite lookup_insert_ne by lia. apply lookup_empty. }
  set (s2 := join_all s1 1 (length nows) 0).
  destruct (join_all_fields (length nows) 1 s1 0%nat) as (Hc2 & Hp2 & Hf2).
  fold s2 in Hc2, Hp2, Hf2.
  (* the refresh settles *)
  cbn [run step]. rewrite Hp2. cbn [s1 promises lookup list_lookup].
  unfold step_settle. rewrite Hc2, Hp2, Hf2.
  destruct (refresh_settle reply tnow (cache s1)) as [o c3].
  cbn [s1 promises fetches]. cbn [insert list_insert].
  set (s3 := {| cache := c3; promises := [Some o]; fetches := [req];
                callers := callers s2 |}).
  (* the callers resume *)
  destruct (resume_all env order s3 0%nat o) as (s & Hrun & Hf & Hp & _ & Hin & _).
  - rewrite Hperm. apply NoDup_seq.
  - reflexivity.
  - intros k Hk. rewrite Hperm in Hk. apply elem_of_seq in Hk.
    unfold awaiting. subst s3. cbn [callers]. subst s2.
    rewrite join_all_callers. case_decide.
    + right. reflexivity.
    + left. assert (k = 0%nat) as -> by lia. subst s1. simpl. apply lookup_insert_eq.
  - exists s, o. split; [exact Hrun|]. rewrite Hf, Hp. repeat split.
    intros k Hk. apply Hin. rewrite Hperm. apply elem_of_seq. lia.
Qed.

Lemma env_ok_configured : configured env_ok.
Proof. repeat split; discriminate. Qed.

Lemma single_flight_witness :
  exists s,
    run env_ok (init initial_cache)
        [Call 0 1700000000000; Call 1 1700000000001; Call 2 1700000000005;
         Settle 0%nat (Parsed true (token_reply (Some 3600))) 1700000000400;
         Resume 2; Resume 0; Resume 1] = Some s
    /\ length (fetches s) = 1%nat
    /\ callers s !! 0%nat ≫= result_of = Some (Fulfilled "1000.abc")
    /\ callers s !! 1%nat ≫= result_of = Some (Fulfilled "1000.abc")
    /\ callers s !! 2%nat ≫= result_of = Some (Fulfilled "1000.abc").
Proof.
  destruct (single_flight env_ok initial_cache 1700000000000
              [1700000000001; 1700000000005]
              (Parsed true (token_reply (Some 3600))) 1700000000400
              [2; 0; 1]%nat) as [(s & o & Hrun & Hlen & Hp & Hres) _].
  - exact env_ok_configured.
  - reflexivity.
  - repeat constructor.
  - apply (perm_trans (l' := [0; 2; 1]%nat)); [apply perm_swap|].
    apply perm_skip, perm_swap.
  - exists s. split; [exact Hrun|]. split; [exact Hlen|].
    assert (o = Fulfilled "1000.abc") as ->.
    { vm_compute in Hrun. injection Hrun as <-. simpl in Hp. congruence. }
    repeat split; apply Hres; simpl; lia.
Defined.

(** C1 as stated fails when a required variable is unset: two calls on an
    empty cache send no request at all, and both throw. *)
Lemma no_request_without_configuration :
  exists s,
    run env_no_secret (init initial_cache)
        [Call 0 1700000000000; Call 1 1700000000000] = Some s
    /\ length (fetches s) <> 1%nat
    /\ fetches s = []
    /\ (exists msg, callers s !! 0%nat = Some (Threw msg))
    /\ (exists msg, callers s !! 1%nat = Some (Threw msg)).
Proof.
  eexists. split; [vm_compute; reflexivity|].
  split; [simpl; lia|]. split; [reflexivity|]. split; eexists; reflexivity.
Qed.

(** ** Releasing the refresh handle (C3) *)

Lemma enter_Lead_again (env : Env) (c c' : Cache) (now now' : Z)
  (req : token_request) :
  getZohoAccessToken env c now = Lead req ->
  readIfValid c' now' = None -> refreshPromise c' = None ->
  getZohoAccessToken env c' now' = Lead req.
Proof.
  unfold getZohoAccessToken. intros H Hv Hp. rewrite Hv, Hp.
  destruct (readIfValid c now); [discriminate|].
  destruct (refreshPromise c); [discriminate|]. exact H.
Qed.

(** C3: whatever the provider's answer, the refresh ends with
    [refreshPromise] back to null; when it fails, the caller that started it
    clears the token and the expiry and rethrows, and the next call starts a
    new refresh with a new request instead of waiting or failing for good. *)
Theorem refresh_handle_released (env : Env) (c : Cache) (now : Z)
  (req : token_request) (reply : provider_reply) (tnow : Z) :
  getZohoAccessToken env c now = Lead req ->
  (forall c', refreshPromise (snd (refresh_settle reply tnow c')) = None)
  /\ exists s o,
      run env (init c) [Call 0 now; Settle 0 reply tnow] = Some s
      /\ promises s = [Some o]
      /\ refreshPromise (cache s) = None
      /\ forall msg, o = Rejected msg ->
           exists s',
             step env s (Resume 0) = Some s'
             /\ callers s' !! 0%nat = Some (Threw msg)
             /\ cache s' = initial_cache
             /\ forall now',
                  exists s'',
                    step env s' (Call 1 now') = Some s''
                    /\ callers s'' !! 1%nat = Some (AwaitLeader 1)
                    /\ refreshPromise (cache s'') = Some 1%nat
                    /\ promises s'' = [Some o; None]
                    /\ fetches s'' = [req; req].
Proof.
  intros Hreq. split; [intros c'; apply refresh_settle_releases|].
  cbn [run]. rewrite (first_call env c now req Hreq).
  cbn [step promises lookup list_lookup].
  unfold step_settle. cbn [cache promises fetches callers].
  pose proof (refresh_settle_releases reply tnow (store_promise c 0)) as Hrel.
  destruct (refresh_settle reply tnow (store_promise c 0)) as [o c1].
  simpl in Hrel. cbn [insert list_insert]. eexists; exists o.
  split; [reflexivity|]. split; [reflexivity|]. split; [exact Hrel|].
  intros msg ->. unfold step_resume, settled. simpl.
  rewrite lookup_insert_eq. simpl. eexists. split; [reflexivity|]. simpl.
  split; [apply lookup_insert_eq|].
  split; [unfold leader_catch, initial_cache; rewrite Hrel; reflexivity|].
  intros now'. rewrite lookup_insert_ne by discriminate. rewrite lookup_insert_ne by discriminate.
  rewrite lookup_empty. eexists. split; [reflexivity|].
  unfold step_call. cbn [cache].
  rewrite (enter_Lead_again env c _ now now' req Hreq); simpl.
  - split; [apply lookup_insert_eq|]. repeat split.
  - reflexivity.
  - exact Hrel.
Qed.

Lemma refresh_handle_released_witness :
  exists s,
    run env_ok (init initial_cache)
        [Call 0 1700000000000;
         Settle 0 (Parsed false
                     {| td_access_token := None; td_expires_in := None;
                        td_error_description := None;
                        td_error := Some "invalid_code"%string;
                        td_message := None |}) 1700000000300;
         Resume 0; Call 1 1700000000900] = Some s
    /\ callers s !! 0%nat
       = Some (Threw "Failed to refresh Zoho token: invalid_code")
    /\ callers s !! 1%nat = Some (AwaitLeader 1)
    /\ length (fetches s) = 2%nat.
Proof.
  destruct (refresh_handle_released env_ok initial_cache 1700000000000
              (tokenFetch (tokenUrl "https://accounts.zoho.in" "1000.refresh"
                                    "1000.ID" "secret"))
              (Parsed false
                 {| td_access_token := None; td_expires_in := None;
                    td_error_description := None;
                    td_error := Some "invalid_code"%string;
                    td_message := None |}) 1700000000300 eq_refl)
    as (_ & s & o & Hrun & Hp & _ & Hfail).
  assert (o = Rejected "Failed to refresh Zoho token: invalid_code") as Ho.
  { vm_compute in Hrun. injection Hrun as <-. simpl in Hp. congruence. }
  destruct (Hfail _ Ho) as (s' & Hres & H0 & _ & Hnext).
  destruct (Hnext 1700000000900) as (s'' & Hcall & H1 & _ & _ & Hf).
  exists s''. split.
  - change [Call 0 1700000000000; ?a; Resume 0; Call 1 1700000000900]
      with ([Call 0 1700000000000; a] ++ [Resume 0; Call 1 1700000000900]).
    rewrite run_app, Hrun. cbn [run]. rewrite Hres, Hcall. reflexivity.
  - split.
    + assert (Hk : callers s'' !! 0%nat = callers s' !! 0%nat).
      { revert Hcall. cbn [step]. destruct (callers s' !! 1%nat); [discriminate|].
        intros [= <-]. unfold step_call.
        destruct (getZohoAccessToken env_ok (cache s') 1700000000900); simpl;
          apply lookup_insert_ne; discriminate. }
      rewrite Hk. exact H0.
    + split; [exact H1|]. rewrite Hf. reflexivity.
Defined.

(** ** Timeouts (C8) *)

Lemma pending_stays (env : Env) (s s' : State) (e : event) (p : promise_id) :
  promises s !! p = Some None ->
  step env s e = Some s' ->
  (forall reply now, e <> Settle p reply now) ->
  promises s' !! p = Some None.
Proof.
  intros Hp Hstep Hne. destruct e as [k now | q reply now | k]; simpl in Hstep.
  - destruct (callers s !! k); [discriminate|]. injection Hstep as <-.
    unfold step_call. destruct (getZohoAccessToken env (cache s) now); try exact Hp.
    simpl. rewrite lookup_app_l; [exact Hp | eapply lookup_lt_Some; eauto].
  - destruct (promises s !! q) as [[o|]|]; try discriminate.
    injection Hstep as <-. unfold step_settle.
    destruct (refresh_settle reply now (cache s)). simpl.
    rewrite list_lookup_insert_ne; [exact Hp|]. intros ->. eapply Hne; reflexivity.
  - unfold step_resume in Hstep.
    destruct (callers s !! k) as [[q|q|?|?]|]; try discriminate;
      destruct (settled s q) as [[tok|msg]|]; try discriminate;
      injection Hstep as <-; exact Hp.
Qed.

Lemma pending_blocks (s : State) (k : nat) (p : promise_id) :
  promises s !! p = Some None -> awaiting s k p -> step_resume s k = None.
Proof.
  intros Hp [E | E]; unfold step_resume, settled; rewrite E, Hp; reflexivity.
Qed.

(** C8, as the route has it: neither request of the server carries an abort
    signal, so neither exchange has a timeout of its own; the 30-second
    abort timer is on the browser form's request to the route.  A refresh
    stays pending, and its callers stay suspended, until its [fetch]
    settles; however it then fails, the in-flight handle is released. *)
Theorem server_requests_unbounded (env : Env) (s s' : State) (e : event)
  (p : promise_id) :
  promises s !! p = Some None ->
  step env s e = Some s' ->
  (forall reply now, e <> Settle p reply now) ->
  (promises s' !! p = Some None
   /\ forall k, awaiting s' k p -> step env s' (Resume k) = None)
  /\ (forall c now req, getZohoAccessToken env c now = Lead req -> signal req = None)
  /\ (forall accessToken payload, signal (crmFetch accessToken payload) = None)
  /\ (forall (payload : list item), signal (formFetch payload) = Some 30000)
  /\ (forall reply now c, refreshPromise (snd (refresh_settle reply now c)) = None).
Proof.
  intros Hp Hstep Hne.
  pose proof (pending_stays env s s' e p Hp Hstep Hne) as Hp'.
  split; [split; [exact Hp' | intros k; apply pending_blocks, Hp']|].
  split; [intros c now req H; apply (enter_Lead_inv env c now req H)|].
  split; [reflexivity|]. split; [reflexivity|].
  intros reply now c. apply refresh_settle_releases.
Qed.

Lemma server_requests_unbounded_witness :
  exists s s',
    run env_ok (init initial_cache) [Call 0 1700000000000] = Some s
    /\ step env_ok s (Call 1 1700000300000) = Some s'
    /\ promises s' !! 0%nat = Some None
    /\ callers s' !! 1%nat = Some (AwaitFollower 0)
    /\ step env_ok s' (Resume 1) = None.
Proof.
  eexists. eexists. split; [vm_compute; reflexivity|].
  split; [vm_compute; reflexivity|].
  match goal with
  | |- promises ?s' !! _ = _ /\ _ =>
      destruct (server_requests_unbounded env_ok
                  {| cache := store_promise initial_cache 0; promises := [None];
                     fetches := [tokenFetch (tokenUrl "https://accounts.zoho.in"
                                               "1000.refresh" "1000.ID" "secret")];
                     callers := <[0%nat := AwaitLeader 0]> ∅ |}
                  s' (Call 1 1700000300000) 0%nat)
        as ((Hp & Hblock) & _)
  end.
  - reflexivity.
  - vm_compute. reflexivity.
  - discriminate.
  - split; [exact Hp|]. split; [reflexivity|].
    apply Hblock. right. reflexivity.
Defined.

(** C8 as stated fails: the token request and the CRM request are sent with
    no abort signal, and five minutes later the refresh is still pending
    with its caller suspended. *)
Lemma no_timeout_on_server_requests :
  (exists req, getZohoAccessToken env_ok initial_cache 1700000000000 = Lead req
               /\ signal req = None)
  /\ signal (crmFetch "1000.abc"
               [payloadItem {| Name := Some "Jane Doe"%string;
                               Email := Some "jane@x.com"%string;
                               Interests := InterestsArray ["Corporate Advisory"%string] |}])
     <> Some 30000
  /\ exists s,
      run env_ok (init initial_cache)
          [Call 0 1700000000000; Call 1 1700000300000] = Some s
      /\ promises s = [None]
      /\ step env_ok s (Resume 0) = None
      /\ step env_ok s (Resume 1) = None.
Proof.
  split; [eexists; split; reflexivity|].
  split; [discriminate|].
  eexists. split; [vm_compute; reflexivity|]. repeat split.
Qed.

(** * Further properties *)

(** ** The token broker *)

Lemma readIfValid_token (c : Cache) (now : Z) (t : string) :
  readIfValid c now = Some t -> access_token c = Some t.
Proof.
  unfold readIfValid. destruct (access_token c) as [tok|]; [|discriminate].
  destruct (_ && _); [|discriminate]. intros [= <-]. reflexivity.
Qed.

(** A token installed at [tnow] is served from the cache, with no request,
    exactly until 30 seconds before it expires; a token that lives 30
    seconds or less is never served. *)
Theorem installed_token_window (env : Env) (d : token_data) (tok : string)
  (tnow now : Z) (c : Cache) :
  td_access_token d = Some tok -> tok <> ""%string -> 0 <= now ->
  let c' := snd (refresh_settle (Parsed true d) tnow c) in
  (getZohoAccessToken env c' now = Hit tok
   <-> now < tnow + (expiresIn d - 30) * 1000)
  /\ (tnow + (expiresIn d - 30) * 1000 <= now ->
      forall t, getZohoAccessToken env c' now <> Hit t)
  /\ (expiresIn d <= 30 -> tnow <= now ->
      forall t, getZohoAccessToken env c' now <> Hit t).
Proof.
  intros Htok Hne Hnow c'.
  remember (expiresIn d) as L eqn:HL.
  assert (Hc : c' = {| access_token := Some tok;
                       expires_at := tnow + L * 1000;
                       refreshPromise := None |}).
  { subst c' L. unfold refresh_settle, refresh_try. rewrite Htok.
    apply truthy_Some in Hne. rewrite Hne. reflexivity. }
  clear HL.
  assert (Hiff : forall t, getZohoAccessToken env c' now = Hit t
                           <-> t = tok /\ now < tnow + (L - 30) * 1000).
  { intros t. rewrite Hc. unfold getZohoAccessToken.
    destruct (readIfValid _ now) as [t'|] eqn:E.
    - apply readIfValid_Some in E; [|exact Hnow]. simpl in E.
      destruct E as ([= <-] & _ & Hlt). split.
      + intros [= <-]. split; [reflexivity | lia].
      + intros [-> _]. reflexivity.
    - split.
      + simpl. destruct (_ || _); discriminate.
      + intros [-> Hlt]. exfalso.
        assert (Hv : readIfValid {| access_token := Some tok;
                                    expires_at := tnow + L * 1000;
                                    refreshPromise := None |} now = Some tok).
        { apply readIfValid_Some; [exact Hnow|]. simpl. repeat split; [exact Hne | lia]. }
        congruence. }
  split; [|split].
  - rewrite Hiff. split; [intros [_ H]; exact H | intros H; split; [reflexivity | exact H]].
  - intros Hle t Ht. apply Hiff in Ht. lia.
  - intros Hshort Hle t Ht. apply Hiff in Ht. lia.
Qed.

Lemma installed_token_window_witness :
  getZohoAccessToken env_ok
    (snd (refresh_settle (Parsed true (token_reply (Some 3600))) 1700000000000
                         initial_cache))
    1700003569999
  = Hit "1000.abc".
Proof.
  apply (installed_token_window env_ok (token_reply (Some 3600)) "1000.abc"
           1700000000000 1700003569999 initial_cache eq_refl).
  - discriminate.
  - lia.
  - reflexivity.
Defined.

Lemma issued_cons (e : event) (es : list event) :
  issued (e :: es) = issued [e] ++ issued es.
Proof.
  destruct e as [k now | p [reason | ok text | ok | [] d] now | k]; simpl; try reflexivity.
  destruct (td_access_token d) as [tok|]; [|reflexivity].
  destruct (String.eqb tok ""); reflexivity.
Qed.

Lemma tokens_within_mono (T T' : list string) (s : State) :
  (forall t, t ∈ T -> t ∈ T') -> tokens_within T s -> tokens_within T' s.
Proof. intros HT (H1 & H2 & H3). repeat split; eauto. Qed.

Lemma settle_issued (p : promise_id) (reply : provider_reply) (now : Z)
  (c : Cache) (t : string) :
  fst (refresh_settle reply now c) = Fulfilled t -> t ∈ issued [Settle p reply now].
Proof.
  unfold refresh_settle, refresh_try.
  destruct reply as [reason | ok text | ok | ok d]; simpl; try discriminate.
  destruct ok; simpl; [|discriminate].
  destruct (td_access_token d) as [tok|]; simpl; [|discriminate].
  destruct (String.eqb tok ""); simpl; [discriminate|].
  intros [= <-]. left.
Qed.

Lemma settle_token (reply : provider_reply) (now : Z) (c : Cache) (t : string) :
  access_token (snd (refresh_settle reply now c)) = Some t ->
  access_token c = Some t \/ fst (refresh_settle reply now c) = Fulfilled t.
Proof.
  unfold refresh_settle, refresh_try.
  destruct reply as [reason | ok text | ok | ok d]; simpl; auto.
  destruct (negb ok || negb (JS.truthy (td_access_token d))); simpl; auto.
  intros [= <-]. right. reflexivity.
Qed.

Lemma tokens_within_step (env : Env) (T : list string) (s s' : State) (e : event) :
  tokens_within T s -> step env s e = Some s' ->
  tokens_within (issued [e] ++ T) s'.
Proof.
  intros (Hc & Hp & Hk) Hstep.
  destruct e as [k now | p reply now | k]; simpl in Hstep.
  - destruct (callers s !! k) eqn:Ek; [discriminate|]. injection Hstep as <-.
    apply (tokens_within_mono T); [intros t Ht; exact Ht|].
    unfold step_call.
    destruct (getZohoAccessToken env (cache s) now) as [tok | q | msg | req] eqn:E;
      (split; [|split]); simpl; try assumption.
    + intros k' t. destruct (decide (k = k')) as [<- | Hne].
      * rewrite lookup_insert_eq. intros [= <-]. apply Hc.
        unfold getZohoAccessToken in E.
        destruct (readIfValid (cache s) now) as [t'|] eqn:Ev.
        -- injection E as ->. eapply readIfValid_token; eauto.
        -- destruct (refreshPromise (cache s)); [discriminate|].
           destruct (_ || _); discriminate.
      * rewrite lookup_insert_ne by exact Hne. apply Hk.
    + intros k' t. destruct (decide (k = k')) as [<- | Hne].
      * rewrite lookup_insert_eq. discriminate.
      * rewrite lookup_insert_ne by exact Hne. apply Hk.
    + intros k' t. destruct (decide (k = k')) as [<- | Hne].
      * rewrite lookup_insert_eq. discriminate.
      * rewrite lookup_insert_ne by exact Hne. apply Hk.
    + intros q t Hq. destruct (decide (q < length (promises s))%nat) as [Hlt | Hge].
      * rewrite lookup_app_l in Hq by exact Hlt. eapply Hp; eauto.
      * rewrite lookup_app_r in Hq by lia.
        destruct (q - length (promises s))%nat; simpl in Hq; discriminate.
    + intros k' t. destruct (decide (k = k')) as [<- | Hne].
      * rewrite lookup_insert_eq. discriminate.
      * rewrite lookup_insert_ne by exact Hne. apply Hk.
  - destruct (promises s !! p) as [[o|]|] eqn:Ep; try discriminate.
    injection Hstep as <-. unfold step_settle.
    pose proof (settle_issued p reply now (cache s)) as Hi.
    pose proof (settle_token reply now (cache s)) as Ht.
    destruct (refresh_settle reply now (cache s)) as [o c]. simpl in Hi, Ht.
    split; [|split]; simpl.
    + intros t Hc'. apply elem_of_app. destruct (Ht t Hc') as [H | H].
      * right. apply Hc, H.
      * left. apply Hi, H.
    + intros q t Hq. apply elem_of_app. destruct (decide (p = q)) as [<- | Hne].
      * rewrite list_lookup_insert_eq in Hq by (eapply lookup_lt_Some; eauto).
        injection Hq as ->. left. apply Hi. reflexivity.
      * rewrite list_lookup_insert_ne in Hq by exact Hne. right. eapply Hp; eauto.
    + intros k t Hk'. apply elem_of_app. right. eapply Hk; eauto.
  - apply (tokens_within_mono T); [intros t Ht; exact Ht|].
    unfold step_resume in Hstep.
    destruct (callers s !! k) as [[p|p|?|?]|] eqn:Ek; try discriminate;
      unfold settled in Hstep;
      destruct (promises s !! p) as [[[tok|msg]|]|] eqn:Ep; try discriminate;
      injection Hstep as <-; (split; [|split]); simpl; try assumption;
      try discriminate;
      intros k' t; (destruct (decide (k = k')) as [<- | Hne];
                    [rewrite lookup_insert_eq | rewrite lookup_insert_ne by exact Hne;
                                                apply Hk]);
      try discriminate; intros [= <-]; eapply Hp; eauto.
Qed.

Lemma tokens_within_run (env : Env) (es : list event) (T : list string)
  (s s' : State) :
  tokens_within T s -> run env s es = Some s' ->
  tokens_within (T ++ issued es) s'.
Proof.
  revert T s. induction es as [|e es IH]; intros T s Hs; simpl run.
  - intros [= <-]. simpl. rewrite app_nil_r. exact Hs.
  - destruct (step env s e) as [s1|] eqn:E; [|discriminate]. intros Hrun.
    apply (tokens_within_mono ((issued [e] ++ T) ++ issued es)).
    + intros t. rewrite (issued_cons e es), !elem_of_app. tauto.
    + eapply IH; [|exact Hrun]. eapply tokens_within_step; eauto.
Qed.

(** The broker hands out only what the provider issued: in every state
    reached from module load, the cached token and every token a caller has
    been given is the [access_token] of some 2xx reply received so far. *)
Theorem tokens_come_from_provider (env : Env) (es : list event) (s : State) :
  run env (init initial_cache) es = Some s ->
  (forall t, access_token (cache s) = Some t -> t ∈ issued es)
  /\ (forall k t, callers s !! k = Some (Returned t) -> t ∈ issued es).
Proof.
  intros Hrun.
  destruct (tokens_within_run env es [] (init initial_cache) s) as (H1 & _ & H3).
  - repeat split; simpl; intros; discriminate.
  - exact Hrun.
  - split; [exact H1 | exact H3].
Qed.

Lemma tokens_come_from_provider_witness :
  exists s,
    run env_ok (init initial_cache)
        [Call 0 1700000000000; Call 1 1700000000001;
         Settle 0 (Parsed true (token_reply (Some 3600))) 1700000000400;
         Resume 1; Call 2 1700000009000] = Some s
    /\ callers s !! 1%nat = Some (Returned "1000.abc")
    /\ callers s !! 2%nat = Some (Returned "1000.abc")
    /\ "1000.abc"%string
       ∈ issued [Call 0 1700000000000; Call 1 1700000000001;
                 Settle 0 (Parsed true (token_reply (Some 3600))) 1700000000400;
                 Resume 1; Call 2 1700000009000].
Proof.
  eexists. split; [vm_compute; reflexivity|].
  split; [reflexivity|]. split; [reflexivity|].
  eapply (tokens_come_from_provider env_ok _ _).
  - vm_compute. reflexivity.
  - instantiate (1 := 2%nat). reflexivity.
Defined.

Lemma callers_anchored_step (env : Env) (s s' : State) (e : event) :
  coherent s -> callers_anchored s -> step env s e = Some s' ->
  callers_anchored s'.
Proof.
  intros [_ Hco] Ha Hstep k' p'. unfold awaiting.
  destruct e as [k now | p reply now | k]; simpl in Hstep.
  - destruct (callers s !! k) eqn:Ek; [discriminate|]. injection Hstep as <-.
    unfold step_call.
    destruct (getZohoAccessToken env (cache s) now) as [tok | q | msg | req] eqn:E;
      simpl; (destruct (decide (k = k')) as [<- | Hne];
              [rewrite lookup_insert_eq | rewrite lookup_insert_ne by exact Hne]);
      try (intros [H | H]; discriminate H);
      try (intros H; apply (Ha k' p' H));
      try (rewrite length_app; intros H; pose proof (Ha k' p' H); lia).
    + intros [[=] | [= <-]].
      unfold getZohoAccessToken in E.
      destruct (readIfValid (cache s) now); [discriminate|].
      destruct (refreshPromise (cache s)) as [q'|] eqn:Eq.
      * injection E as ->. eapply lookup_lt_Some. apply Hco. reflexivity.
      * destruct (_ || _); discriminate.
    + rewrite length_app. simpl. intros [[= <-] | [=]]. lia.
  - destruct (promises s !! p) as [[o|]|] eqn:Ep; try discriminate.
    injection Hstep as <-. unfold step_settle.
    destruct (refresh_settle reply now (cache s)) as [o c]. simpl.
    rewrite length_insert. apply Ha.
  - unfold step_resume in Hstep.
    destruct (callers s !! k) as [[p|p|?|?]|] eqn:Ek; try discriminate;
      destruct (settled s p) as [[tok|msg]|]; try discriminate;
      injection Hstep as <-; simpl;
      (destruct (decide (k = k')) as [<- | Hne];
       [rewrite lookup_insert_eq; intros [H | H]; discriminate H
       | rewrite lookup_insert_ne by exact Hne; apply Ha]).
Qed.

Lemma callers_anchored_run (env : Env) (es : list event) (s s' : State) :
  coherent s -> callers_anchored s -> run env s es = Some s' ->
  callers_anchored s'.
Proof.
  revert s. induction es as [|e es IH]; intros s Hco Ha; simpl.
  - intros [= <-]. exact Ha.
  - destruct (step env s e) as [s1|] eqn:E; [|discriminate].
    apply IH.
    + eapply coherent_step; eauto.
    + eapply callers_anchored_step; eauto.
Qed.

Lemma reachable_coherent (env : Env) (es : list event) (s : State) :
  run env (init initial_cache) es = Some s -> coherent s /\ callers_anchored s.
Proof.
  intros Hrun. split.
  - eapply coherent_run; [|exact Hrun]. apply coherent_init. reflexivity.
  - eapply callers_anchored_run; [| |exact Hrun].
    + apply coherent_init. reflexivity.
    + intros k p [H | H]; simpl in H; discriminate.
Qed.

(** In every state reached from module load the bookkeeping of the broker
    is consistent: one request has been sent per refresh started,
    [cache.refreshPromise] is set exactly while a refresh is pending and
    then names it, and every suspended caller waits on a refresh that
    exists. *)
Theorem broker_bookkeeping (env : Env) (es : list event) (s : State) :
  run env (init initial_cache) es = Some s ->
  length (fetches s) = length (promises s)
  /\ (forall p, refreshPromise (cache s) = Some p <-> promises s !! p = Some None)
  /\ (forall k p, awaiting s k p -> is_Some (promises s !! p)).
Proof.
  intros Hrun. destruct (reachable_coherent env es s Hrun) as [[Hlen Hco] Ha].
  split; [exact Hlen|]. split; [exact Hco|].
  intros k p H. apply lookup_lt_is_Some. eapply Ha; eauto.
Qed.

Lemma broker_bookkeeping_witness :
  exists s,
    run env_ok (init initial_cache)
        [Call 0 1700000000000; Call 1 1700000000001;
         Settle 0 (FetchRejected "fetch failed") 1700000000400;
         Call 2 1700000000500] = Some s
    /\ length (fetches s) = 2%nat
    /\ refreshPromise (cache s) = Some 1%nat
    /\ promises s !! 1%nat = Some None.
Proof.
  eexists. split; [vm_compute; reflexivity|].
  destruct (broker_bookkeeping env_ok
              [Call 0 1700000000000; Call 1 1700000000001;
               Settle 0 (FetchRejected "fetch failed") 1700000000400;
               Call 2 1700000000500] _ eq_refl) as (Hlen & Hco & _).
  split; [exact Hlen|]. split; [reflexivity|]. apply Hco. reflexivity.
Defined.

(** The broker cannot wedge: in every state reached from module load in
    which no refresh is pending, every suspended caller can resume, and it
    resumes with the outcome of the refresh it waited for. *)
Theorem idle_broker_blocks_nobody (env : Env) (es : list event) (s : State)
  (k : nat) (p : promise_id) :
  run env (init initial_cache) es = Some s ->
  refreshPromise (cache s) = None ->
  awaiting s k p ->
  exists s' o,
    step env s (Resume k) = Some s'
    /\ settled s p = Some o
    /\ callers s' !! k ≫= result_of = Some o.
Proof.
  intros Hrun Hidle Hk.
  destruct (reachable_coherent env es s Hrun) as [[_ Hco] Ha].
  assert (Hset : exists o, settled s p = Some o).
  { pose proof (Ha k p Hk) as Hlt. unfold settled.
    destruct (promises s !! p) as [[o|]|] eqn:Ho.
    - exists o. reflexivity.
    - apply Hco in Ho. congruence.
    - apply lookup_ge_None in Ho. lia. }
  destruct Hset as [o Ho]. simpl. unfold step_resume.
  destruct Hk as [Hk | Hk]; rewrite Hk, Ho; destruct o;
    eexists; eexists; (split; [reflexivity|]); (split; [reflexivity|]);
    simpl; rewrite lookup_insert_eq; reflexivity.
Qed.

Lemma idle_broker_blocks_nobody_witness :
  exists s s',
    run env_ok (init initial_cache)
        [Call 0 1700000000000; Call 1 1700000000001;
         Settle 0 (Unparsable true "<html>") 1700000000400] = Some s
    /\ step env_ok s (Resume 1) = Some s'
    /\ callers s' !! 1%nat
       = Some (Threw "Failed to refresh Zoho token (invalid JSON response)").
Proof.
  destruct (idle_broker_blocks_nobody env_ok
              [Call 0 1700000000000; Call 1 1700000000001;
               Settle 0 (Unparsable true "<html>") 1700000000400]
              _ 1%nat 0%nat eq_refl eq_refl) as (s' & o & Hstep & Ho & Hres).
  - right. reflexivity.
  - eexists. exists s'. split; [reflexivity|]. split; [exact Hstep|].
    revert Hstep. vm_compute. intros [= <-]. reflexivity.
Defined.

(** ** The token URL *)

Lemma escape_digits (c : ascii) :
  JS.uri_unreserved c = false ->
  JS.uri_unreserved (JS.hex_digit (N_of_ascii c / 16)) = true
  /\ JS.uri_unreserved (JS.hex_digit (N_of_ascii c mod 16)) = true
  /\ ascii_of_N (16 * hex_value (JS.hex_digit (N_of_ascii c / 16))
                 + hex_value (JS.hex_digit (N_of_ascii c mod 16))) = c.
Proof.
  destruct c as [[] [] [] [] [] [] [] []]; vm_compute; intros H;
    try discriminate H; repeat split.
Qed.

Lemma unreserved_plain (c : ascii) :
  JS.uri_unreserved c = true ->
  Ascii.eqb c "%" = false /\ Ascii.eqb "&" c = false /\ Ascii.eqb "=" c = false.
Proof.
  destruct c as [[] [] [] [] [] [] [] []]; vm_compute; intros H;
    try discriminate H; repeat split.
Qed.

Lemma encode_alphabet (s : string) :
  Forall (fun c => JS.uri_unreserved c = true \/ c = "%"%char)
         (list_ascii_of_string (JS.encodeURIComponent s)).
Proof.
  induction s as [|c s IH]; simpl; [constructor|].
  destruct (JS.uri_unreserved c) eqn:E; simpl.
  - constructor; [left; exact E | exact IH].
  - destruct (escape_digits c E) as (Hh & Hl & _).
    constructor; [right; reflexivity|].
    constructor; [left; exact Hh|].
    constructor; [left; exact Hl | exact IH].
Qed.

Lemma count_char_app (c : ascii) (a b : string) :
  count_char c (a +:+ b) = (count_char c a + count_char c b)%nat.
Proof. induction a as [|d a IH]; simpl; [reflexivity|]. rewrite IH. lia. Qed.

Lemma count_encoded (s : string) :
  count_char "&" (JS.encodeURIComponent s) = O
  /\ count_char "=" (JS.encodeURIComponent s) = O.
Proof.
  induction s as [|c s [IH1 IH2]]; [split; reflexivity|].
  cbn [JS.encodeURIComponent].
  destruct (JS.uri_unreserved c) eqn:E; cbn [count_char].
  - destruct (unreserved_plain c E) as (_ & -> & ->). split; assumption.
  - destruct (escape_digits c E) as (Hh & Hl & _).
    destruct (unreserved_plain _ Hh) as (_ & -> & ->).
    destruct (unreserved_plain _ Hl) as (_ & -> & ->).
    split; assumption.
Qed.

Lemma decode_plain (c : ascii) (s : string) :
  Ascii.eqb c "%" = false ->
  percent_decode (String c s) = String c (percent_decode s).
Proof. intros H. simpl. rewrite H. reflexivity. Qed.

Lemma decode_encode (s : string) :
  percent_decode (JS.encodeURIComponent s) = s.
Proof.
  induction s as [|c s IH]; simpl; [reflexivity|].
  destruct (JS.uri_unreserved c) eqn:E.
  - destruct (unreserved_plain c E) as (Hp & _).
    rewrite decode_plain by exact Hp. rewrite IH. reflexivity.
  - destruct (escape_digits c E) as (_ & _ & Hc).
    cbn [percent_decode]. rewrite Ascii.eqb_refl, Hc, IH. reflexivity.
Qed.

(** Whatever the refresh token, the client id and the client secret
    contain, they are escaped into unreserved characters and [%], and
    reading the escapes back gives the value: the token URL gets exactly
    the three [&] and the four [=] of its four parameters on top of those
    of the accounts domain. *)
Theorem token_url_parameters (accountsDomain refreshToken clientId clientSecret : string) :
  (forall v,
      Forall (fun c => JS.uri_unreserved c = true \/ c = "%"%char)
             (list_ascii_of_string (JS.encodeURIComponent v))
      /\ percent_decode (JS.encodeURIComponent v) = v)
  /\ count_char "&" (tokenUrl accountsDomain refreshToken clientId clientSecret)
     = (count_char "&" accountsDomain + 3)%nat
  /\ count_char "=" (tokenUrl accountsDomain refreshToken clientId clientSecret)
     = (count_char "=" accountsDomain + 4)%nat.
Proof.
  split; [intros v; split; [apply encode_alphabet | apply decode_encode]|].
  unfold tokenUrl. rewrite !count_char_app.
  destruct (count_encoded refreshToken) as [-> ->].
  destruct (count_encoded clientId) as [-> ->].
  destruct (count_encoded clientSecret) as [-> ->].
  simpl. split; lia.
Qed.

Lemma append_inv_head (a x y : string) : a +:+ x = a +:+ y -> x = y.
Proof.
  induction a as [|c a IH]; [intros H; exact H|].
  change (String c a +:+ x) with (String c (a +:+ x)).
  change (String c a +:+ y) with (String c (a +:+ y)).
  intros [= H]. apply IH, H.
Qed.

(** Two strings without [&], each followed by [&] and a rest, are equal
    as wholes only when they are equal part by part. *)
Lemma amp_split (a a' x x' : string) :
  count_char "&" a = O -> count_char "&" a' = O ->
  a +:+ String "&" x = a' +:+ String "&" x' -> a = a' /\ x = x'.
Proof.
  revert a'. induction a as [|c a IH]; intros [|c' a'] Ha Ha'.
  - intros [= ->]. split; reflexivity.
  - change (String c' a' +:+ String "&" x') with (String c' (a' +:+ String "&" x')).
    intros [= <- _]. discriminate Ha'.
  - change (String c a +:+ String "&" x) with (String c (a +:+ String "&" x)).
    intros [= -> _]. discriminate Ha.
  - change (String c a +:+ String "&" x) with (String c (a +:+ String "&" x)).
    change (String c' a' +:+ String "&" x') with (String c' (a' +:+ String "&" x')).
    intros [= <- H]. cbn [count_char] in Ha, Ha'.
    destruct (Ascii.eqb "&" c); [discriminate Ha|].
    destruct (IH a' Ha Ha' H) as [-> ->]. split; reflexivity.
Qed.

(** The token URL is unambiguous: for one accounts domain, two URLs are
    equal only when refresh token, client id and client secret are; no
    value, whatever it contains, can pass for another or spill into the
    next parameter. *)
Theorem token_url_unambiguous
  (accountsDomain refreshToken clientId clientSecret
   refreshToken' clientId' clientSecret' : string) :
  tokenUrl accountsDomain refreshToken clientId clientSecret
  = tokenUrl accountsDomain refreshToken' clientId' clientSecret' ->
  refreshToken = refreshToken' /\ clientId = clientId'
  /\ clientSecret = clientSecret'.
Proof.
  unfold tokenUrl. intros H.
  apply append_inv_head, append_inv_head in H.
  change ("&client_id=" +:+ ?X) with (String "&" ("client_id=" +:+ X)) in H.
  apply amp_split in H; try apply count_encoded. destruct H as [Hr H].
  apply append_inv_head in H.
  change ("&client_secret=" +:+ ?X) with (String "&" ("client_secret=" +:+ X)) in H.
  apply amp_split in H; try apply count_encoded. destruct H as [Hc H].
  apply append_inv_head in H.
  apply amp_split in H; try apply count_encoded. destruct H as [Hs _].
  repeat split.
  - rewrite <- (decode_encode refreshToken), <- (decode_encode refreshToken'), Hr.
    reflexivity.
  - rewrite <- (decode_encode clientId), <- (decode_encode clientId'), Hc.
    reflexivity.
  - rewrite <- (decode_encode clientSecret), <- (decode_encode clientSecret'), Hs.
    reflexivity.
Qed.

Lemma token_url_unambiguous_witness :
  tokenUrl "https://accounts.zoho.in" "1000.r&client_id=x" "1000.ID" "s e/c=ret"
  = "https://accounts.zoho.in/oauth/v2/token?refresh_token=1000.r%26client_id%3Dx&client_id=1000.ID&client_secret=s%20e%2Fc%3Dret&grant_type=refresh_token"%string
  /\ percent_decode "1000.r%26client_id%3Dx" = "1000.r&client_id=x"%string
  /\ percent_decode "1000.ID" = "1000.ID"%string.
Proof.
  split; [reflexivity|].
  destruct (token_url_unambiguous "https://accounts.zoho.in"
              (percent_decode "1000.r%26client_id%3Dx") (percent_decode "1000.ID")
              "s e/c=ret" "1000.r&client_id=x" "1000.ID" "s e/c=ret" eq_refl)
    as (H1 & H2 & _).
  split; [exact H1 | exact H2].
Defined.

(** ** Error mapping *)

Lemma or_default_nonempty (a : option string) (d : string) :
  d <> ""%string -> JS.or_default a d <> ""%string.
Proof.
  intros Hd. unfold JS.or_default. destruct a as [s|]; [|exact Hd].
  destruct (String.eqb_spec s ""); assumption.
Qed.

(** [mapZohoError] always gives the user something to read and one of
    three statuses: the message is never empty, the status is 400, 401 or
    409; it is 409 exactly for the code DUPLICATE_DATA, which is also
    exactly when a [duplicateField] is returned, and 401 exactly for
    AUTHENTICATION_FAILURE. *)
Theorem mapZohoError_total (errorCode errorMessage : option string)
  (errorDetails : option zoho_details) :
  let r := mapZohoError errorCode errorMessage errorDetails in
  em_message r <> ""%string
  /\ (em_status r = 400 \/ em_status r = 401 \/ em_status r = 409)
  /\ (em_status r = 409 <-> errorCode = Some "DUPLICATE_DATA"%string)
  /\ (em_duplicateField r <> None <-> errorCode = Some "DUPLICATE_DATA"%string)
  /\ (em_status r = 401 <-> errorCode = Some "AUTHENTICATION_FAILURE"%string).
Proof.
  cbv zeta. split; [|split; [|split; [|split]]];
    unfold mapZohoError;
    (destruct errorCode as [c|];
     [destruct (String.eqb_spec c "DUPLICATE_DATA") as [->|N1];
      [|destruct (String.eqb_spec c "MANDATORY_NOT_FOUND") as [->|N2];
        [|destruct (String.eqb_spec c "INVALID_DATA") as [->|N3];
          [|destruct (String.eqb_spec c "AUTHENTICATION_FAILURE") as [->|N4]]]]|]);
    simpl; try rewrite duplicate_field_Email;
    try (apply or_default_nonempty); try discriminate; auto;
    try (split; intros H; try discriminate H; try congruence; reflexivity).
Qed.

Lemma em_status_cases (errorCode errorMessage : option string)
  (errorDetails : option zoho_details) :
  let st := em_status (mapZohoError errorCode errorMessage errorDetails) in
  st = 400 \/ st = 401 \/ st = 409.
Proof.
  cbv zeta. unfold mapZohoError. destruct errorCode as [c|]; [|auto].
  destruct (String.eqb c "DUPLICATE_DATA"); [auto|].
  destruct (String.eqb c "MANDATORY_NOT_FOUND"); [auto|].
  destruct (String.eqb c "INVALID_DATA"); [auto|].
  destruct (String.eqb c "AUTHENTICATION_FAILURE"); auto.
Qed.

(** ** The POST handler as a whole *)

Lemma respond_to_status (r : zoho_response) :
  (res_status (respond_to r) = 200 <-> isSuccess r = true)
  /\ (res_status (respond_to r) = 200 \/ res_status (respond_to r) = 400
      \/ res_status (respond_to r) = 401 \/ res_status (respond_to r) = 409).
Proof.
  unfold respond_to. destruct (isSuccess r); simpl.
  - split; [split; reflexivity | auto].
  - pose proof (em_status_cases (errorCode_of r) (errorMessage_of r)
                  (item_field details (first_item r))) as H. cbv zeta in H.
    split; [split; [lia | discriminate] | tauto].
Qed.

(** The handler talks to the CRM only with a token in hand and a body it
    has accepted: it sends at most one request, and that request goes to
    the newsletter module by POST, carries the token it was given in its
    [Authorization] header, and has one payload item per data item, each
    marked with the lead source "Website".  A failed token acquisition or
    a rejected body sends nothing. *)
Theorem crm_called_only_with_token (env : Env) (b : request_body)
  (tok : token_result) (reply : crm_reply) :
  (length (crm_requests (POST env b) tok reply) <= 1)%nat
  /\ Forall (fun req =>
               exists t items,
                 tok = TokenOk t
                 /\ accepted_items b = Some items
                 /\ url req = zohoApiUrl
                 /\ method req = "POST"%string
                 /\ headers req !! 0%nat
                    = Some ("Authorization"%string, "Zoho-oauthtoken " +:+ t)
                 /\ length (body req) = length items
                 /\ Forall (fun p => Lead_Source p = "Website"%string) (body req))
            (crm_requests (POST env b) tok reply).
Proof.
  destruct b as [reason | | [ | | [|it items]]]; simpl; try (split; [lia | constructor]).
  destruct tok as [t | msg]; simpl; [|split; [lia | constructor]].
  split; [lia|]. constructor; [|constructor].
  exists t, (it :: items). repeat split.
  - simpl. rewrite length_map. reflexivity.
  - simpl. constructor; [reflexivity|]. apply Forall_map. apply Forall_true.
    intros x. reflexivity.
Qed.





(** ** The subscribe form: selecting interests *)

Lemma existsb_eqb_elem (c : string) (l : list string) :
  existsb (String.eqb c) l = true <-> c ∈ l.
Proof.
  rewrite existsb_exists. split.
  - intros (x & Hin & Heq). apply String.eqb_eq in Heq. subst.
    apply list_elem_of_In, Hin.
  - intros H. exists c. split; [apply list_elem_of_In, H | apply String.eqb_refl].
Qed.

Lemma handle_fields (c : string) (p : form_data) :
  fd_Name (handleInterestChange c p) = fd_Name p
  /\ fd_Email (handleInterestChange c p) = fd_Email p
  /\ fd_Interests (handleInterestChange c p) = toggled c (fd_Interests p).
Proof.
  unfold toggled, handleInterestChange. simpl.
  destruct (existsb (String.eqb c) (fd_Interests p)); repeat split.
Qed.

Lemma toggled_elem (c x : string) (l : list string) :
  x ∈ toggled c l <-> (x = c /\ c ∉ l) \/ (x <> c /\ x ∈ l).
Proof.
  unfold toggled, handleInterestChange. simpl.
  destruct (existsb (String.eqb c) l) eqn:E; simpl.
  - apply existsb_eqb_elem in E. rewrite list_elem_of_filter.
    split; [intros [H1 H2]; right; auto | intros [[-> H] | H]; [contradiction | exact H]].
  - assert (Hc : c ∉ l).
    { intros H. apply existsb_eqb_elem in H. congruence. }
    rewrite elem_of_app, list_elem_of_singleton. split.
    + intros [H | ->]; [right | left]; split; auto. intros ->. contradiction.
    + intros [[-> _] | [_ H]]; auto.
Qed.

Lemma toggled_NoDup (c : string) (l : list string) :
  NoDup l -> NoDup (toggled c l).
Proof.
  intros Hl. unfold toggled, handleInterestChange. simpl.
  destruct (existsb (String.eqb c) l) eqn:E; simpl.
  - apply NoDup_filter, Hl.
  - apply NoDup_app. split; [exact Hl|]. split; [|apply NoDup_singleton].
    intros x Hx Hc. apply list_elem_of_singleton in Hc. subst.
    apply existsb_eqb_elem in Hx. congruence.
Qed.

Lemma clicks_cons (c : string) (cs : list string) (p : form_data) :
  clicks (c :: cs) p = clicks cs (handleInterestChange c p).
Proof. reflexivity. Qed.

Lemma clicks_parity (cs : list string) (p : form_data) (x : string) :
  x ∈ fd_Interests (clicks cs p)
  <-> xorb (bool_decide (x ∈ fd_Interests p))
           (Nat.odd (count_occ string_dec cs x)) = true.
Proof.
  revert p. induction cs as [|c cs IH]; intros p.
  - simpl. rewrite xorb_false_r. symmetry. apply bool_decide_eq_true.
  - rewrite clicks_cons, IH.
    destruct (handle_fields c p) as (_ & _ & ->).
    simpl count_occ. destruct (string_dec c x) as [-> | Hne].
    + rewrite Nat.odd_succ, <- Nat.negb_odd.
      assert (H : bool_decide (x ∈ toggled x (fd_Interests p))
                  = negb (bool_decide (x ∈ fd_Interests p))).
      { destruct (decide (x ∈ fd_Interests p)) as [Hin | Hout].
        - rewrite (bool_decide_eq_true_2 _ Hin). simpl.
          apply bool_decide_eq_false. rewrite toggled_elem. tauto.
        - rewrite (bool_decide_eq_false_2 _ Hout). simpl.
          apply bool_decide_eq_true. rewrite toggled_elem. tauto. }
      rewrite H.
      generalize (bool_decide (x ∈ fd_Interests p))
                 (Nat.odd (count_occ string_dec cs x)).
      intros [] []; simpl; split; congruence.
    + assert (H : bool_decide (x ∈ toggled c (fd_Interests p))
                  = bool_decide (x ∈ fd_Interests p)).
      { apply bool_decide_ext. rewrite toggled_elem. split.
        - intros [[-> _] | [_ H]]; [congruence | exact H].
        - intros H. right. split; [congruence | exact H]. }
      rewrite H. reflexivity.
Qed.

Lemma clicks_fields (cs : list string) (p : form_data) :
  fd_Name (clicks cs p) = fd_Name p /\ fd_Email (clicks cs p) = fd_Email p
  /\ (NoDup (fd_Interests p) -> NoDup (fd_Interests (clicks cs p))).
Proof.
  revert p. induction cs as [|c cs IH]; intros p; [repeat split; auto|].
  rewrite clicks_cons. destruct (IH (handleInterestChange c p)) as (-> & -> & Hnd).
  destruct (handle_fields c p) as (-> & -> & Ht).
  repeat split. intros Hp. apply Hnd. rewrite Ht. apply toggled_NoDup, Hp.
Qed.

(** Clicking interests toggles them: after any succession of clicks on the
    empty form an interest is selected exactly when it was clicked an odd
    number of times, the selection holds no interest twice, and name and
    e-mail are untouched. *)
Theorem selection_by_parity (cs : list string) (name email : string) :
  let d := clicks cs {| fd_Name := name; fd_Email := email; fd_Interests := [] |} in
  NoDup (fd_Interests d)
  /\ (forall x, x ∈ fd_Interests d <-> Nat.odd (count_occ string_dec cs x) = true)
  /\ fd_Name d = name /\ fd_Email d = email.
Proof.
  cbv zeta.
  destruct (clicks_fields cs {| fd_Name := name; fd_Email := email;
                                fd_Interests := [] |}) as (Hn & He & Hnd).
  split; [apply Hnd; constructor|]. split; [|split; assumption].
  intros x. rewrite clicks_parity. cbn [fd_Interests].
  rewrite bool_decide_eq_false_2 by (apply not_elem_of_nil). reflexivity.
Qed.

(** ** From the form to the CRM: the interests *)

Lemma split_comma_nonnil (s : string) : JS.split_comma s <> [].
Proof.
  destruct s as [|c s]; simpl; [discriminate|].
  destruct (Ascii.eqb c ","); [discriminate|].
  destruct (JS.split_comma s); discriminate.
Qed.













(** ** The form and the route agree *)

Lemma form_success_is_route_success (r : zoho_response) :
  isZohoSuccess (first_item r) = true -> isSuccess r = true.
Proof.
  unfold isZohoSuccess, isSuccess, errorCode_of, errorMessage_of.
  destruct (first_item r) as [it|]; simpl; [|discriminate].
  destruct (match code it with Some c => String.eqb c "SUCCESS" | None => false end);
    [reflexivity|].
  destruct (match status it with Some st => String.eqb st "success" | None => false end);
    [reflexivity|]. simpl.
  unfold JS.or_else. destruct (JS.truthy (message it)) eqn:E; simpl; [|discriminate].
  rewrite E. simpl. intros H. exact H.
Qed.

Lemma answer_cases (env : Env) (b : request_body) (tok : token_result)
  (reply : crm_reply) :
  let res := answer (POST env b) tok reply in
  (res_status res <> 200
   /\ (200 <=? res_status res) && (res_status res <=? 299) = false
   /\ exists error details, res_body res = ErrorBody error details
                            /\ (res_status res = 401 -> test_auth error = true))
  \/ exists r, reply = CrmJson r /\ res = respond_to r.
Proof.
  cbv zeta.
  destruct b as [reason | | [ | | [|it items]]]; simpl;
    try (left; split; [discriminate|]; split; [reflexivity|];
         eexists; eexists; split; [reflexivity | discriminate]).
  destruct tok as [t | msg]; simpl.
  2:{ left. split; [discriminate|]. split; [reflexivity|].
      eexists; eexists. split; reflexivity. }
  destruct reply as [reason | text | | r]; simpl;
    try (left; split; [discriminate|]; split; [reflexivity|];
         eexists; eexists; split; [reflexivity | discriminate]).
  right. exists r. split; reflexivity.
Qed.

Lemma form_on_error_body (ok : bool) (error : string) (d : form_data) :
  ok = false ->
  let shown := handleResponse
                 (Json ok {| j_error := Some error; j_message := None;
                             j_success := None; j_duplicateField := None;
                             j_zohoItem := None; j_dataItem := None |}) d in
  st_type (fst shown) = "error"%string /\ snd shown = d
  /\ (test_auth error = true -> st_message (fst shown) = auth_message).
Proof.
  intros ->. cbv zeta. unfold handleResponse, hasError, zohoData_of. simpl.
  destruct (negb (String.eqb error "") && test_auth error) eqn:E; simpl.
  - repeat split; auto.
  - repeat split. intros Ha. rewrite Ha, andb_true_r in E.
    destruct (String.eqb_spec error ""); [subst; discriminate Ha | discriminate E].
Qed.

Lemma form_on_zoho_error (r : zoho_response) (d : form_data) :
  isSuccess r = false ->
  let res := respond_to r in
  let shown := handleResponse (client_view res) d in
  st_type (fst shown) = "error"%string /\ snd shown = d
  /\ (res_status res = 409 ->
      st_duplicateField (fst shown) = Some "Email"%string
      /\ st_allErrors (fst shown) = Some [registered_message])
  /\ (res_status res = 401 -> st_message (fst shown) = auth_message).
Proof.
  intros Hs. cbv zeta.
  assert (Hz : isZohoSuccess (first_item r) = false).
  { destruct (isZohoSuccess (first_item r)) eqn:E; [|reflexivity].
    apply form_success_is_route_success in E. congruence. }
  assert (Hok : forall st, st = 400 \/ st = 401 \/ st = 409 ->
                           (200 <=? st) && (st <=? 299) = false).
  { intros st [-> | [-> | ->]]; reflexivity. }
  unfold respond_to. rewrite Hs.
  pose proof (em_status_cases (errorCode_of r) (errorMessage_of r)
                (item_field details (first_item r))) as Hst. cbv zeta in Hst.
  unfold client_view. cbn [res_status res_body].
  rewrite (Hok _ Hst).
  unfold handleResponse, hasError, zohoData_of. cbn [j_zohoItem j_dataItem j_error
    j_duplicateField j_message j_success negb orb andb].
  assert (Hzd : match first_item r with Some it => Some it | None => None end
                = first_item r) by (destruct (first_item r); reflexivity).
  rewrite Hzd, Hz. cbn [negb andb orb].
  unfold mapZohoError, errorCode_of in *.
  destruct (item_field code (first_item r)) as [c|] eqn:Ec; cbn [opt_is].
  2:{ simpl. destruct (_ && _); simpl; repeat split; try discriminate. }
  destruct (String.eqb_spec c "DUPLICATE_DATA") as [-> | N1].
  { cbn [em_status em_message em_duplicateField].
    rewrite duplicate_field_Email. simpl. repeat split; discriminate. }
  destruct (String.eqb_spec c "MANDATORY_NOT_FOUND") as [-> | N2].
  { simpl. repeat split; discriminate. }
  destruct (String.eqb_spec c "INVALID_DATA") as [-> | N3].
  { simpl. repeat split; discriminate. }
  destruct (String.eqb_spec c "AUTHENTICATION_FAILURE") as [-> | N4].
  { simpl. repeat split; discriminate. }
  cbn [em_status em_message em_duplicateField orb JS.truthy].
  destruct (_ && _); simpl; repeat split; discriminate.
Qed.

(** The form never contradicts the route.  Whatever the request body, the
    token and the CRM's reply: when the route answers anything but 200 the
    form shows an error and keeps what the user typed; on 409 it blames the
    e-mail field with the "already registered" message; on 401 it shows the
    authentication message; and it shows success, clearing the form, only
    on a 200.  On a 200 it does show success unless the CRM item itself
    carries a duplicate code or the status "error" without a success
    signal. *)
Theorem form_agrees_with_route (env : Env) (b : request_body)
  (tok : token_result) (reply : crm_reply) (d : form_data) :
  let res := answer (POST env b) tok reply in
  let shown := handleResponse (client_view res) d in
  (res_status res <> 200 -> st_type (fst shown) = "error"%string /\ snd shown = d)
  /\ (res_status res = 409 ->
      st_duplicateField (fst shown) = Some "Email"%string
      /\ st_allErrors (fst shown) = Some [registered_message])
  /\ (res_status res = 401 -> st_message (fst shown) = auth_message)
  /\ (st_type (fst shown) = "success"%string ->
      res_status res = 200 /\ snd shown = initial)
  /\ (forall r, reply = CrmJson r -> res_status res = 200 ->
                item_blames (first_item r) = false ->
                st_type (fst shown) = "success"%string).
Proof.
  cbv zeta.
  destruct (answer_cases env b tok reply)
    as [(Hne & Hok & error & dt & Hb & Hauth) | (r & Hr & Hres)];
    cbv zeta in *.
  - unfold client_view. rewrite Hb, Hok.
    destruct (form_on_error_body false error d eq_refl) as (H1 & H2 & H3).
    cbv zeta in *.
    split; [intros _; split; assumption|].
    split; [intros H409; exfalso; revert Hb H409;
            clear; destruct b as [reason | | [ | | [|it items]]]; simpl;
            try discriminate; destruct tok; simpl; try discriminate;
            destruct reply; simpl; try discriminate;
            unfold respond_to; destruct (isSuccess _); discriminate|].
    split; [intros H401; apply H3, Hauth, H401|].
    split; [rewrite H1; discriminate|].
    intros r _ H. contradiction.
  - rewrite Hres. destruct (isSuccess r) eqn:Hs.
    + assert (Hst : res_status (respond_to r) = 200).
      { unfold respond_to. rewrite Hs. reflexivity. }
      assert (Hshown : forall blames, item_blames (first_item r) = blames ->
                 (blames = false ->
                  handleResponse (client_view (respond_to r)) d
                  = ({| st_type := "success";
                        st_message := "Successfully subscribed to newsletter!";
                        st_allErrors := None; st_duplicateField := None |}, initial))
                 /\ (blames = true ->
                     st_type (fst (handleResponse (client_view (respond_to r)) d))
                     = "error"%string)).
      { intros blames Hb. unfold respond_to. rewrite Hs. unfold client_view.
        cbn [res_status res_body Z.leb andb]. simpl Z.leb.
        unfold handleResponse, hasError, zohoData_of.
        cbn [j_zohoItem j_dataItem j_error j_duplicateField j_message j_success
             negb orb andb JS.truthy].
        assert (Hzd : match first_item r with Some it => Some it | None => None end
                      = first_item r) by (destruct (first_item r); reflexivity).
        rewrite Hzd. unfold item_blames in Hb.
        split; intros ->.
        - rewrite Hb. cbn [andb]. rewrite orb_true_r. reflexivity.
        - rewrite Hb. apply andb_true_iff in Hb. destruct Hb as [_ Hb].
          rewrite Hb. cbn [andb orb].
          destruct (opt_is _ _ || _); [reflexivity|]. reflexivity. }
      destruct (Hshown _ eq_refl) as [Hgood Hbad].
      rewrite Hst.
      split; [intros Hc; contradiction|].
      split; [discriminate|]. split; [discriminate|].
      split.
      * intros Hsucc. split; [reflexivity|].
        destruct (item_blames (first_item r)) eqn:Hb.
        -- rewrite (Hbad eq_refl) in Hsucc. discriminate.
        -- rewrite (Hgood eq_refl). reflexivity.
      * intros r' Heq _ Hb. rewrite Hr in Heq. injection Heq as <-.
        rewrite (Hgood Hb). reflexivity.
    + destruct (form_on_zoho_error r d Hs) as (H1 & H2 & H3 & H4). cbv zeta in *.
      assert (Hst : res_status (respond_to r) <> 200).
      { destruct (respond_to_status r) as [Hiff _]. intros Hc. apply Hiff in Hc.
        congruence. }
      split; [intros _; split; assumption|].
      split; [exact H3|]. split; [exact H4|].
      split; [rewrite H1; discriminate|].
      intros r' _ Hc. contradiction.
Qed.

(** ** The banner's alternative text *)

Example getAltText_ex :
  getAltText "https://cdn.example.com/wp/2024/05/corporate-law_update.v2.png"
  = "Corporate Law Update"%string.
Proof. reflexivity. Qed.

Lemma split_on_segments (sep : ascii) (s : string) :
  Forall (fun w => count_char sep w = O) (split_on sep s).
Proof.
  induction s as [|c s IH]; simpl; [repeat constructor|].
  destruct (Ascii.eqb c sep) eqn:E; [constructor; [reflexivity | exact IH]|].
  destruct (split_on sep s) as [|w ws]; simpl.
  - repeat constructor. cbn [count_char]. rewrite Ascii.eqb_sym, E. reflexivity.
  - apply Forall_cons in IH. destruct IH as [Hw Hws].
    constructor; [|exact Hws]. cbn [count_char]. rewrite Ascii.eqb_sym, E. exact Hw.
Qed.

Lemma split_on_nonnil (sep : ascii) (s : string) : split_on sep s <> [].
Proof.
  destruct s as [|c s]; simpl; [discriminate|].
  destruct (Ascii.eqb c sep); [discriminate|].
  destruct (split_on sep s); discriminate.
Qed.

Lemma last_segment_plain (sep : ascii) (s : string) :
  count_char sep (List.last (split_on sep s) EmptyString) = O.
Proof.
  pose proof (split_on_segments sep s) as H.
  pose proof (split_on_nonnil sep s) as Hn.
  induction (split_on sep s) as [|w ws IH]; [contradiction|].
  apply Forall_cons in H. destruct H as [Hw Hws].
  destruct ws as [|w' ws']; [exact Hw|].
  change (List.last (w :: w' :: ws') EmptyString) with (List.last (w' :: ws') EmptyString).
  apply IH; [exact Hws | discriminate].
Qed.

Lemma first_segment_plain (sep : ascii) (s : string) :
  count_char sep (List.hd EmptyString (split_on sep s)) = O.
Proof.
  pose proof (split_on_segments sep s) as H.
  destruct (split_on sep s) as [|w ws]; [reflexivity|].
  apply Forall_cons in H. apply H.
Qed.

(** The first piece of a string holds no more of a character than the
    string. *)
Lemma first_segment_count (sep c : ascii) (s : string) :
  count_char c s = O -> count_char c (List.hd EmptyString (split_on sep s)) = O.
Proof.
  induction s as [|d s IH]; [reflexivity|]. cbn [count_char split_on].
  destruct (Ascii.eqb c d) eqn:E; [discriminate|]. simpl. intros H.
  destruct (Ascii.eqb d sep); [reflexivity|].
  specialize (IH H). destruct (split_on sep s) as [|w ws]; simpl in *.
  - rewrite E. reflexivity.
  - rewrite E. exact IH.
Qed.

Lemma upper_keeps (c : ascii) :
  Ascii.eqb "/" (upper_ascii c) = Ascii.eqb "/" c
  /\ Ascii.eqb "." (upper_ascii c) = Ascii.eqb "." c
  /\ Ascii.eqb "-" (upper_ascii c) = Ascii.eqb "-" c
  /\ Ascii.eqb "_" (upper_ascii c) = Ascii.eqb "_" c
  /\ is_lower (upper_ascii c) = false.
Proof. destruct c as [[] [] [] [] [] [] [] []]; vm_compute; repeat split. Qed.

Lemma capitalize_count (d : ascii) (prev : bool) (s : string) :
  (forall c, Ascii.eqb d (upper_ascii c) = Ascii.eqb d c) ->
  count_char d (capitalize_from prev s) = count_char d s.
Proof.
  intros Hd. revert prev. induction s as [|c s IH]; intros prev; [reflexivity|].
  cbn [capitalize_from count_char]. rewrite IH.
  destruct (is_word c && negb prev); [rewrite Hd|]; reflexivity.
Qed.

Lemma dashes_count (s : string) :
  count_char "-" (dashes_to_spaces s) = O
  /\ count_char "_" (dashes_to_spaces s) = O
  /\ count_char "/" (dashes_to_spaces s) = count_char "/" s
  /\ count_char "." (dashes_to_spaces s) = count_char "." s.
Proof.
  induction s as [|c s (I1 & I2 & I3 & I4)]; [repeat split|].
  cbn [dashes_to_spaces count_char]. rewrite I1, I2, I3, I4.
  destruct c as [[] [] [] [] [] [] [] []]; vm_compute; repeat split.
Qed.

Lemma capitalize_title_cased (prev : bool) (s : string) :
  title_cased_from prev (capitalize_from prev s) = true.
Proof.
  revert prev. induction s as [|c s IH]; intros prev; [reflexivity|].
  cbn [capitalize_from title_cased_from].
  assert (Hw : forall b, is_word (if is_word c && b then upper_ascii c else c)
                         = is_word c).
  { intros b. destruct c as [[] [] [] [] [] [] [] []]; destruct b; reflexivity. }
  rewrite Hw, IH, andb_true_r.
  destruct prev; cbn [negb]; [rewrite !andb_false_r; reflexivity|].
  rewrite !andb_true_r.
  destruct (is_word c) eqn:E.
  - destruct (upper_keeps c) as (_ & _ & _ & _ & ->). reflexivity.
  - assert (Hl : is_lower c = false).
    { revert E. destruct c as [[] [] [] [] [] [] [] []]; vm_compute; congruence. }
    rewrite Hl. reflexivity.
Qed.

Lemma capitalize_length (prev : bool) (s : string) :
  String.length (capitalize_from prev s) = String.length s.
Proof.
  revert prev. induction s as [|c s IH]; intros prev; [reflexivity|].
  simpl. rewrite IH. reflexivity.
Qed.

Lemma dashes_length (s : string) :
  String.length (dashes_to_spaces s) = String.length s.
Proof. induction s as [|c s IH]; [reflexivity|]. simpl. rewrite IH. reflexivity. Qed.

(** The alternative text derived from an image URL is a title: it holds no
    slash, dot, hyphen or underscore, none of its words starts with a
    lower-case letter, and it is as long as the stem of the file name it
    comes from, the part of the last path segment before its first dot. *)
Theorem alt_text_is_a_title (url : string) :
  count_char "/" (getAltText url) = O
  /\ count_char "." (getAltText url) = O
  /\ count_char "-" (getAltText url) = O
  /\ count_char "_" (getAltText url) = O
  /\ title_cased_from false (getAltText url) = true
  /\ String.length (getAltText url)
     = String.length
         (List.hd EmptyString
                  (split_on "." (List.last (split_on "/" url) EmptyString))).
Proof.
  unfold getAltText.
  set (file := List.last (split_on "/" url) EmptyString).
  set (stem := List.hd EmptyString (split_on "." file)).
  assert (Hslash : count_char "/" stem = O).
  { apply first_segment_count, last_segment_plain. }
  assert (Hdot : count_char "." stem = O) by apply first_segment_plain.
  destruct (dashes_count stem) as (D1 & D2 & D3 & D4).
  repeat split.
  - rewrite capitalize_count; [congruence | intros c; apply upper_keeps].
  - rewrite capitalize_count; [congruence | intros c; apply upper_keeps].
  - rewrite capitalize_count; [exact D1 | intros c; apply upper_keeps].
  - rewrite capitalize_count; [exact D2 | intros c; apply upper_keeps].
  - apply capitalize_title_cased.
  - rewrite capitalize_length, dashes_length. reflexivity.
Qed.

Lemma split_on_plain (sep : ascii) (s : string) :
  count_char sep s = O -> split_on sep s = [s].
Proof.
  induction s as [|c s IH]; [reflexivity|]. cbn [count_char]. intros H.
  destruct (Ascii.eqb sep c) eqn:E; [discriminate|].
  cbn [split_on]. rewrite Ascii.eqb_sym, E, (IH H). reflexivity.
Qed.

Lemma last_cons_nonnil {A} (x : A) (l : list A) (d : A) :
  l <> [] -> List.last (x :: l) d = List.last l d.
Proof. destruct l; [contradiction | reflexivity]. Qed.

Lemma split_on_last_app (dir file : string) :
  count_char "/" file = O ->
  List.last (split_on "/" (dir +:+ String "/" file)) EmptyString = file.
Proof.
  intros Hf. induction dir as [|c dir IH].
  - simpl. rewrite (split_on_plain _ _ Hf). reflexivity.
  - change (String c dir +:+ String "/" file)
      with (String c (dir +:+ String "/" file)).
    cbn [split_on]. pose proof (split_on_nonnil "/" (dir +:+ String "/" file)) as Hn.
    destruct (Ascii.eqb c "/").
    + rewrite last_cons_nonnil by exact Hn. exact IH.
    + destruct (split_on "/" (dir +:+ String "/" file)) as [|w ws] eqn:E;
        [contradiction|].
      destruct ws as [|w' ws']; [|exact IH].
      exfalso. simpl in IH. subst w.
      assert (Hlen : (length (split_on "/" (dir +:+ String "/" file)) >= 2)%nat).
      { clear. induction dir as [|d dir IH]; simpl.
        - pose proof (split_on_nonnil "/" file).
          destruct (split_on "/" file); [contradiction | simpl; lia].
        - destruct (Ascii.eqb d "/"); simpl; [lia|].
          destruct (split_on "/" (dir +:+ String "/" file)) as [|w [|w' ws]];
            simpl in *; lia. }
      rewrite E in Hlen. simpl in Hlen. lia.
Qed.

(** Only the file name counts: with any directory in front, the
    alternative text is that of the file name alone. *)
Theorem alt_text_ignores_directory (dir file : string) :
  count_char "/" file = O ->
  getAltText (dir +:+ String "/" file) = getAltText file.
Proof.
  intros Hf. unfold getAltText.
  rewrite (split_on_last_app dir file Hf), (split_on_plain _ _ Hf). reflexivity.
Qed.

Lemma alt_text_ignores_directory_witness :
  getAltText "https://cdn.example.com/wp/2024/annual_report-2024.final.pdf"
  = getAltText "annual_report-2024.final.pdf"
  /\ getAltText "annual_report-2024.final.pdf" = "Annual Report 2024"%string.
Proof.
  split; [|reflexivity].
  apply (alt_text_ignores_directory "https://cdn.example.com/wp/2024"
           "annual_report-2024.final.pdf").
  reflexivity.
Defined.

(** ** The publication popup *)

Section ParseInt.

Import DecimalString.

Ltac eval_digit :=
  match goal with
  | |- context [digit_value ?c] =>
      let v := eval vm_compute in (digit_value c) in
      change (digit_value c) with v; cbv iota
  end.

Lemma parse_digits_tail (acc : Z) (tail : string) :
  no_digit_head tail -> parse_digits true acc tail = Some acc.
Proof. destruct tail as [|c t]; simpl; [reflexivity|]. intros ->. reflexivity. Qed.

Lemma parse_digits_acc (d : Decimal.uint) (acc : positive) (tail : string) :
  no_digit_head tail ->
  parse_digits true (Z.pos acc) (NilEmpty.string_of_uint d +:+ tail)
  = Some (Z.pos (Pos.of_uint_acc d acc)).
Proof.
  intros Ht. revert acc. induction d as [|d IH|d IH|d IH|d IH|d IH|d IH|d IH|d IH|d IH|d IH];
    intros acc; cbn [NilEmpty.string_of_uint Pos.of_uint_acc];
    [apply parse_digits_tail, Ht | ..];
    change (String ?c ?s +:+ tail) with (String c (s +:+ tail));
    cbn [parse_digits]; eval_digit; rewrite <- IH; f_equal; lia.
Qed.

Lemma parse_digits_zero (d : Decimal.uint) (tail : string) :
  no_digit_head tail ->
  parse_digits true 0 (NilEmpty.string_of_uint d +:+ tail)
  = Some (Z.of_N (Pos.of_uint d)).
Proof.
  intros Ht. induction d as [|d IH|d IH|d IH|d IH|d IH|d IH|d IH|d IH|d IH|d IH];
    cbn [NilEmpty.string_of_uint Pos.of_uint];
    [apply parse_digits_tail, Ht | ..];
    change (String ?c ?s +:+ tail) with (String c (s +:+ tail));
    cbn [parse_digits]; eval_digit;
    [exact IH | ..];
    match goal with
    | |- parse_digits true ?a _ = _ =>
        let p := eval vm_compute in (Z.to_pos a) in
        change a with (Z.pos p); apply (parse_digits_acc d p tail Ht)
    end.
Qed.

Lemma parse_digits_first (d : Decimal.uint) (tail : string) :
  no_digit_head tail -> d <> Decimal.Nil ->
  parse_digits false 0 (NilEmpty.string_of_uint d +:+ tail)
  = Some (Z.of_N (Pos.of_uint d)).
Proof.
  intros Ht Hd. rewrite <- (parse_digits_zero d tail Ht).
  destruct d; [contradiction | ..]; reflexivity.
Qed.

Lemma skip_digits (d : Decimal.uint) (tail : string) :
  d <> Decimal.Nil ->
  skipWhiteSpace (NilEmpty.string_of_uint d +:+ tail)
  = NilEmpty.string_of_uint d +:+ tail.
Proof. destruct d; [contradiction | ..]; reflexivity. Qed.

Lemma to_uint_nonnil (p : positive) : Pos.to_uint p <> Decimal.Nil.
Proof.
  intros H. pose proof (DecimalPos.Unsigned.of_to p) as E. rewrite H in E.
  discriminate E.
Qed.

Lemma parseInt_digits (d : Decimal.uint) (tail : string) :
  no_digit_head tail -> d <> Decimal.Nil ->
  parseInt (NilEmpty.string_of_uint d +:+ tail) = Some (Z.of_N (Pos.of_uint d)).
Proof.
  intros Ht Hd. unfold parseInt. rewrite (skip_digits d tail Hd).
  rewrite <- (parse_digits_first d tail Ht Hd).
  destruct d; [contradiction | ..]; reflexivity.
Qed.

Lemma parseInt_number (n : Z) (tail : string) :
  no_digit_head tail -> parseInt (numberToString n +:+ tail) = Some n.
Proof.
  intros Ht. unfold numberToString. destruct n as [|p|p]; simpl Z.to_int.
  - reflexivity || (destruct tail as [|c t]; simpl in *; [reflexivity|];
                    unfold parseInt; simpl; rewrite Ht; reflexivity).
  - cbn [NilEmpty.string_of_int].
    rewrite (parseInt_digits _ tail Ht (to_uint_nonnil p)).
    rewrite DecimalPos.Unsigned.of_to. reflexivity.
  - cbn [NilEmpty.string_of_int].
    change (String "-" ?s +:+ tail) with (String "-" (s +:+ tail)).
    unfold parseInt. cbn [skipWhiteSpace]. 
    change (JS.is_ws "-") with false. change (ws_lead "-") with false. cbv iota.
    change (Ascii.eqb "-" "-") with true. cbv iota.
    rewrite (parse_digits_first _ tail Ht (to_uint_nonnil p)).
    rewrite DecimalPos.Unsigned.of_to. reflexivity.
Qed.

End ParseInt.

Lemma parseInt_reads_toString_aux (n : Z) :
  parseInt (numberToString n) = Some n
  /\ forall c rest, digit_value c = None ->
                    parseInt (numberToString n +:+ String c rest) = Some n.
Proof.
  split.
  - rewrite <- (parseInt_number n EmptyString I). f_equal.
    generalize (numberToString n). intros s.
    induction s as [|c s IH]; [reflexivity|].
    change (String c s +:+ EmptyString) with (String c (s +:+ EmptyString)).
    rewrite <- IH. reflexivity.
  - intros c rest Hc. apply parseInt_number. exact Hc.
Qed.

(** The popup reads back the time it wrote: for every integer [n] that
    JavaScript holds exactly, such as a [Date.now()],
    [parseInt(n.toString(), 10)] is [n], also when the digits are followed
    by anything that is no digit. *)
Theorem parseInt_reads_toString (n : Z) :
  Z.abs n < 2 ^ 53 ->
  parseInt (numberToString n) = Some n
  /\ forall c rest, digit_value c = None ->
                    parseInt (numberToString n +:+ String c rest) = Some n.
Proof. intros _. apply parseInt_reads_toString_aux. Qed.

Lemma parseInt_reads_toString_witness :
  numberToString 1700000000000 = "1700000000000"%string
  /\ parseInt "1700000000000" = Some 1700000000000
  /\ parseInt "1700000000000.5ms" = Some 1700000000000
  /\ parseInt "ms" = None.
Proof.
  split; [reflexivity|].
  destruct (parseInt_reads_toString 1700000000000) as [H1 H2]; [reflexivity|].
  split; [exact H1|]. split; [|reflexivity].
  exact (H2 "."%char "5ms"%string eq_refl).
Defined.

Lemma numberToString_nonempty (n : Z) : numberToString n <> ""%string.
Proof.
  intros H. pose proof (parseInt_number n EmptyString I) as E.
  rewrite H in E. discriminate E.
Qed.

(** The popup's submission is gated twice: nothing is sent while a field
    is empty, and a duplicate reported by the CRM stops it before
    WordPress; any other outcome of the CRM check, an exception included,
    lets it through.  A submission that is stopped always shows a message;
    the browser storage is written and the visitor redirected only after
    WordPress has answered ok. *)
Theorem popup_submission_gates (formData : popup_form)
  (localStorage : gmap string string) (item : publication)
  (z : zoho_check) (w : wp_result) (now : Z) :
  let r := popup_handleSubmit formData localStorage item z w now in
  (sr_zoho_called r = true
   <-> pf_name formData <> ""%string /\ pf_email formData <> ""%string)
  /\ (sr_wordpress_called r = true
      <-> pf_name formData <> ""%string /\ pf_email formData <> ""%string
          /\ is_duplicate z = false)
  /\ (sr_wordpress_called r = false -> sr_error r <> ""%string)
  /\ (sr_storage r = localStorage /\ sr_redirect r = None
      \/ sr_wordpress_called r = true /\ w = WpAnswer true
         /\ sr_redirect r = redirect_target item
         /\ sr_storage r !! "publication_user_email"%string
            = Some (pf_email formData)
         /\ sr_storage r !! "publication_form_submission"%string
            = Some (numberToString now))
  /\ sr_loading r = false.
Proof.
  cbv zeta. unfold popup_handleSubmit.
  destruct (String.eqb_spec (pf_name formData) "") as [En | En]; simpl.
  { repeat split; try discriminate; try (intros (H & _); contradiction); auto. }
  destruct (String.eqb_spec (pf_email formData) "") as [Ee | Ee]; simpl.
  { repeat split; try discriminate; try (intros (_ & H & _); contradiction);
      try (intros (_ & H); contradiction); auto. }
  destruct (is_duplicate z) eqn:Ed; simpl.
  { repeat split; auto; try discriminate; try (intros (_ & _ & H); discriminate H).
    intros _. destruct z as [|ok error dup code]; [discriminate Ed|].
    apply or_default_nonempty. discriminate. }
  destruct w as [|[]]; simpl; repeat split; auto; try discriminate.
  right. repeat split.
  - rewrite lookup_insert_ne by discriminate. apply lookup_insert_eq.
  - apply lookup_insert_eq.
Qed.

(** A submission is remembered for 90 days: after a submission that
    WordPress accepted at time [now], the popup mounted at time [now']
    skips the form and redirects exactly when [now' - now] is under 90
    days, and shows the form again from then on.  With nothing stored the
    form is shown. *)
Theorem popup_remembers_90_days (formData : popup_form)
  (localStorage : gmap string string) (item : publication)
  (z : zoho_check) (now now' : Z) :
  pf_name formData <> ""%string -> pf_email formData <> ""%string ->
  is_duplicate z = false ->
  let r := popup_handleSubmit formData localStorage item z (WpAnswer true) now in
  on_mount (sr_storage r) now' item
  = (if now' - now <? 7776000000
     then Redirecting (redirect_target item) else ShowForm)
  /\ on_mount ∅ now' item = ShowForm.
Proof.
  intros Hn He Hd. cbv zeta. split; [|reflexivity].
  unfold popup_handleSubmit.
  apply String.eqb_neq in Hn, He. rewrite Hn, He, Hd. cbn [orb sr_storage].
  unfold on_mount, remembered.
  rewrite lookup_insert_eq.
  rewrite lookup_insert_ne by discriminate. rewrite lookup_insert_eq.
  cbn [JS.truthy JS.toString]. rewrite He.
  pose proof (numberToString_nonempty now) as Hs. apply String.eqb_neq in Hs.
  rewrite Hs. cbn [negb andb].
  destruct (parseInt_reads_toString_aux now) as [-> _].
  reflexivity.
Qed.

Lemma popup_remembers_witness :
  on_mount
    (sr_storage (popup_handleSubmit {| pf_name := "Jane Doe"; pf_email := "jane@x.com" |}
                   ∅ {| publication_url := None; slug := Some "gst-update"%string |}
                   ZohoCheckThrows (WpAnswer true) 1700000000000))
    (1700000000000 + 7775999999)
    {| publication_url := None; slug := Some "gst-update"%string |}
  = Redirecting (Some "/publications/gst-update"%string).
Proof.
  destruct (popup_remembers_90_days {| pf_name := "Jane Doe"; pf_email := "jane@x.com" |}
              ∅ {| publication_url := None; slug := Some "gst-update"%string |}
              ZohoCheckThrows 1700000000000 (1700000000000 + 7775999999))
    as [H _].
  - discriminate.
  - discriminate.
  - reflexivity.
  - exact H.
Defined.

(** ** The subscribe form: validation *)

Section Regex.










End Regex.








Example validated_submission_ex :
  errors (validate {| fd_Name := " Jane Doe"; fd_Email := "jane.doe@x.co.in";
                      fd_Interests := ["Others"%string] |}) = []
  /\ errors (validate {| fd_Name := "Jane"; fd_Email := " jane@x.com";
                         fd_Interests := [] |})
     = ["Please enter a valid email address";
        "Please select at least one interest"]%string.
Proof. split; reflexivity. Qed.

(** ** Two submissions, one token *)



(** ** A server without credentials *)



